(** * Plataforma-Juegos: the REST backend of [Server/backend/server.js]

    A shallow embedding of the route handlers of the game-catalog server
    (registration and login, the protected catalog routes, the per-user
    library) together with the two mongoose schemas they use
    ([models/user.js], [models/game.js]).

    Conventions of the embedding.
    - A handler is a function from the request data and the store to a
      response and the store afterwards.  The body of its [try] block is
      written in a small monad of state and exceptions; the [catch] clause is
      the function [handler], which turns every exception into the reply
      500 'Server error'.
    - The store is the pair of collections [users] and [games], in insertion
      order, plus [failures]: the schedule that says which of the coming
      round trips to the database is rejected.  [failures = []] is a store
      that answers every call.
    - What the JavaScript runtime picks by itself (the clock, a fresh
      ObjectId, the bcrypt salt, the process environment) is an explicit
      input, the record [Env].
    - Request fields are the values of [req.body] as [express.json()] hands
      them to the handler: a string that may be absent ([option string]) and,
      for the price, a number, of which the model has the whole numbers a
      JavaScript number holds exactly ([Z], [isSafeInteger]).  Other JSON
      shapes of a field are outside the model, as are update operators and
      the paths [_id], [__v], [createdAt] and [updatedAt] in the body of a
      PUT, and the [createdAt]/[updatedAt] stamps, which none of the
      handlers below reads.
    - A string of the model spells a JavaScript string, by its UTF-8 bytes:
      equality, emptiness, the split at a space and the [length] are read
      off the bytes.  What JavaScript computes from tables of its own
      ([toLowerCase], the reading of a date) is an operation of the
      interface [JsRuntime].  A Date is represented by its time value.
    - mongoose, bcrypt and jsonwebtoken are not code of this repository.
      The model statics and [save] of mongoose are written out on the store
      as the library documents them, with the casts, setters, validators and
      unique indexes that the two schemas switch on; bcrypt and jsonwebtoken
      enter through the interface [CryptoLib], specified by their contract. *)

From Stdlib Require Import String Ascii List ZArith Bool Arith Lia.
From Stdlib Require HexString.
Import ListNotations.
Open Scope string_scope.
Open Scope list_scope.

(** ** JavaScript values *)

(** [!v] for a request field that is a string or absent: [undefined] and the
    empty string are falsy.  [truthy v] is the value on the else-branch of
    [if (!v) return ...]. *)
Definition truthy (v : option string) : option string :=
  match v with
  | Some EmptyString => None
  | Some s => Some s
  | None => None
  end.

(** [s.length]: the UTF-16 code units of the text.  A character is one
    unit, and two when it lies outside the basic plane, where UTF-8 has four
    bytes; the bytes that continue a character count nothing. *)
Definition units (c : ascii) : nat :=
  let n := nat_of_ascii c in
  if (n <? 128)%nat then 1%nat
  else if (n <? 192)%nat then 0%nat
  else if (n <? 240)%nat then 1%nat
  else 2%nat.

Fixpoint js_length (s : string) : nat :=
  match s with
  | EmptyString => 0%nat
  | String c rest => (units c + js_length rest)%nat
  end.

(** What JavaScript computes from tables of its own: [s.toLowerCase()],
    [new Date(s)] ([None] is an Invalid Date) and the cast that mongoose
    applies to a string on a [Date] path ([None] is a CastError,
    [Some None] is [null]). *)
Class JsRuntime := {
  toLowerCase : string -> string;
  new_Date : string -> option Z;
  castDate : string -> option (option Z)
}.

(** What the proofs use of them: lower-casing does not empty a text. *)
Class JsContract (J : JsRuntime) : Prop := {
  toLowerCase_nonempty : forall s, s <> "" -> toLowerCase s <> ""
}.

(** The letters A to Z in lower case, every other byte as it is. *)
Definition lowerChar (c : ascii) : ascii :=
  let n := nat_of_ascii c in
  if ((65 <=? n) && (n <=? 90))%nat then ascii_of_nat (n + 32) else c.

Fixpoint asciiLower (s : string) : string :=
  match s with
  | EmptyString => EmptyString
  | String c rest => String (lowerChar c) (asciiLower rest)
  end.

(** [Number.isSafeInteger]: the whole numbers a JavaScript number holds
    exactly. *)
Definition isSafeInteger (n : Z) : bool :=
  (Z.abs n <=? 9007199254740991)%Z.

(** [s.split(sep)] for a one-character separator: never the empty list. *)
Fixpoint split (sep : ascii) (s : string) : list string :=
  match s with
  | EmptyString => [EmptyString]
  | String c rest =>
      if Ascii.eqb c sep then EmptyString :: split sep rest
      else match split sep rest with
           | [] => [String c EmptyString]
           | w :: ws => String c w :: ws
           end
  end.

(** A text without a space in it. *)
Fixpoint compact (s : string) : bool :=
  match s with
  | EmptyString => true
  | String c rest => negb (Ascii.eqb c " ") && compact rest
  end.

(** ** ObjectId

    An ObjectId is represented by its canonical text, the 24 lower-case
    hexadecimal digits that [toString] and the JSON replies show; two
    ObjectIds are the same value when these texts agree. *)
Definition ObjectId := string.

Definition toString (o : ObjectId) : string := o.

Definition isHexDigit (c : ascii) : bool :=
  let n := nat_of_ascii c in
  (((48 <=? n) && (n <=? 57)) || ((65 <=? n) && (n <=? 70))
   || ((97 <=? n) && (n <=? 102)))%nat.

(** The cast mongoose applies to a string where the schema wants an ObjectId
    ([findById], [createdBy]): 24 hexadecimal digits in either case are
    accepted and name the id that prints them in lower case, anything else
    is a CastError.  (Some versions of the driver take more strings; the
    proofs use only that an accepted string is not empty.) *)
Definition castObjectId (s : string) : option ObjectId :=
  if (String.length s =? 24)%nat && forallb isHexDigit (list_ascii_of_string s)
  then Some (asciiLower s) else None.

(** [MongooseArray.prototype.includes] on an array of ObjectIds compares by
    value. *)
Definition includes (o : ObjectId) (arr : list ObjectId) : bool :=
  existsb (String.eqb o) arr.

(** ** Documents ([models/user.js], [models/game.js]) *)

Module User.
Record doc := {
  _id : ObjectId;
  username : string;
  email : string;
  passwordHash : string;
  isAdmin : bool;
  library : list ObjectId
}.

Definition set_library (u : doc) (l : list ObjectId) : doc :=
  {| _id := _id u; username := username u; email := email u;
     passwordHash := passwordHash u; isAdmin := isAdmin u; library := l |}.
End User.

Module Game.
Record doc := {
  _id : ObjectId;
  title : string;
  description : string;
  price : Z;
  coverUrl : string;
  genre : string;
  releaseDate : option Z;
  createdBy : option ObjectId
}.
End Game.

(** ** The store *)

Record Db := {
  users : list User.doc;
  games : list Game.doc;
  failures : list bool
}.

Definition set_users (us : list User.doc) (db : Db) : Db :=
  {| users := us; games := games db; failures := failures db |}.
Definition set_games (gs : list Game.doc) (db : Db) : Db :=
  {| users := users db; games := gs; failures := failures db |}.
Definition set_failures (fs : list bool) (db : Db) : Db :=
  {| users := users db; games := games db; failures := fs |}.

(** ** Awaited calls: state and exceptions *)

Inductive Exn := CastError | ValidationError | DuplicateKey | StorageError.

Definition M (A : Type) : Type := Db -> (Exn + A) * Db.

Definition ret {A} (a : A) : M A := fun db => (inr a, db).
Definition throw {A} (e : Exn) : M A := fun db => (inl e, db).
Definition bind {A B} (m : M A) (k : A -> M B) : M B :=
  fun db =>
    match m db with
    | (inl e, db') => (inl e, db')
    | (inr a, db') => k a db'
    end.
Definition gets {A} (f : Db -> A) : M A := fun db => (inr (f db), db).
Definition modify (f : Db -> Db) : M unit := fun db => (inr tt, f db).

Declare Scope js_scope.
Delimit Scope js_scope with js.
Notation "x <- m ;; k" := (bind m (fun x => k))
  (at level 100, m at next level, right associativity) : js_scope.
Notation "'await' m ;; k" := (bind m (fun _ => k))
  (at level 100, m at next level, right associativity) : js_scope.
Open Scope js_scope.

(** One round trip to the database: the next entry of the schedule says
    whether it is rejected. *)
Definition roundtrip : M unit :=
  fun db =>
    match failures db with
    | [] => (inr tt, db)
    | false :: fs => (inr tt, set_failures fs db)
    | true :: fs => (inl StorageError, set_failures fs db)
    end.

Definition castId (s : string) : M ObjectId :=
  match castObjectId s with
  | Some o => ret o
  | None => throw CastError
  end.

(** ** Replies *)

Record UserView := {
  view_id : string;
  view_username : string;
  view_email : string;
  view_isAdmin : bool
}.

Inductive Json :=
| Message (message : string)
| Session (token : string) (user : UserView)
| GameJson (game : Game.doc)
| LibraryJson (message : string) (library : list ObjectId).

Record Response := { status : nat; json : Json }.

(** [res.json(j)] and [res.status(s).json(j)]. *)
Definition res_json (j : Json) : Response := {| status := 200; json := j |}.
Definition res_status (s : nat) (j : Json) : Response :=
  {| status := s; json := j |}.

(** [try { ... } catch (err) { res.status(500).json({ message: 'Server error' }) }]:
    what the body wrote to the store before it threw stays written. *)
Definition handler (body : M Response) : Db -> Response * Db :=
  fun db =>
    match body db with
    | (inr r, db') => (r, db')
    | (inl _, db') => (res_status 500 (Message "Server error"), db')
    end.

(** ** Token payload *)

(** What the handlers sign, [{ id, username, isAdmin }], and what a verified
    token decodes to: the same with the issue and expiry times. *)
Record Claims := {
  claim_id : string;
  claim_username : string;
  claim_isAdmin : bool
}.

Record Payload := {
  claims : Claims;
  iat : Z;
  exp : Z
}.

(** ** Model statics used by the handlers *)

Definition byId (oid : ObjectId) (u : User.doc) : bool :=
  String.eqb (User._id u) oid.

Definition User_findById (id : string) : M (option User.doc) :=
  oid <- castId id ;;
  await roundtrip ;;
  gets (fun db => find (byId oid) (users db)).

Fixpoint replace_first {A} (p : A -> bool) (new : A) (l : list A) : list A :=
  match l with
  | [] => []
  | x :: rest => if p x then new :: rest else x :: replace_first p new rest
  end.

(** [user.save()] on a document that was loaded from the store: the
    document with that [_id] is replaced. *)
Definition User_save (user : User.doc) : M unit :=
  await roundtrip ;;
  modify (fun db =>
    set_users (replace_first (byId (User._id user)) user (users db)) db).

Definition gameById (oid : ObjectId) (g : Game.doc) : bool :=
  String.eqb (Game._id g) oid.

Definition Game_findById (id : string) : M (option Game.doc) :=
  oid <- castId id ;;
  await roundtrip ;;
  gets (fun db => find (gameById oid) (games db)).

Fixpoint remove_first {A} (p : A -> bool) (l : list A) : list A :=
  match l with
  | [] => []
  | x :: rest => if p x then rest else x :: remove_first p rest
  end.

Definition Game_findByIdAndDelete (id : string) : M (option Game.doc) :=
  oid <- castId id ;;
  await roundtrip ;;
  found <- gets (fun db => find (gameById oid) (games db)) ;;
  await modify (fun db => set_games (remove_first (gameById oid) (games db)) db) ;;
  ret found.

(** [$pull: { library: gid }]. *)
Definition pull (gid : ObjectId) (l : list ObjectId) : list ObjectId :=
  filter (fun g => negb (String.eqb g gid)) l.

(** [User.updateMany({ library: gid }, { $pull: { library: gid } })]. *)
Definition User_updateMany_pull (gid : ObjectId) : M unit :=
  await roundtrip ;;
  modify (fun db =>
    set_users (map (fun u => if includes gid (User.library u)
                             then User.set_library u (pull gid (User.library u))
                             else u)
                   (users db)) db).

(** ** Library routes *)

(** [POST /api/library/add], after [authMiddleware] has set [req.user]. *)
Definition libraryAdd (req_user : Payload) (gameId : option string)
  : Db -> Response * Db :=
  handler (
    match truthy gameId with
    | None => ret (res_status 400 (Message "gameId required"))
    | Some gameId =>
        game <- Game_findById gameId ;;
        match game with
        | None => ret (res_status 404 (Message "Game not found"))
        | Some game =>
            user <- User_findById (claim_id (claims req_user)) ;;
            match user with
            | None => ret (res_status 404 (Message "User not found"))
            | Some user =>
                if includes (Game._id game) (User.library user)
                then ret (res_status 400 (Message "Already in library"))
                else
                  let user :=
                    User.set_library user (User.library user ++ [Game._id game]) in
                  await User_save user ;;
                  ret (res_json (LibraryJson "Added" (User.library user)))
            end
        end
    end).

(** [POST /api/library/remove], after [authMiddleware]. *)
Definition libraryRemove (req_user : Payload) (gameId : option string)
  : Db -> Response * Db :=
  handler (
    match truthy gameId with
    | None => ret (res_status 400 (Message "gameId required"))
    | Some gameId =>
        user <- User_findById (claim_id (claims req_user)) ;;
        match user with
        | None => ret (res_status 404 (Message "User not found"))
        | Some user =>
            let user :=
              User.set_library user
                (filter (fun g => negb (String.eqb (toString g) gameId))
                        (User.library user)) in
            await User_save user ;;
            ret (res_json (LibraryJson "Removed" (User.library user)))
        end
    end).

(** [DELETE /api/games/:id], after [authMiddleware]. *)
Definition gameDelete (id : string) : Db -> Response * Db :=
  handler (
    game <- Game_findByIdAndDelete id ;;
    match game with
    | None => ret (res_status 404 (Message "Not found"))
    | Some game =>
        await User_updateMany_pull (Game._id game) ;;
        ret (res_json (Message "Deleted"))
    end).

(** ** What the runtime supplies *)

Record Env := {
  now : Z;                               (* the clock, in seconds *)
  fresh_id : ObjectId;                   (* the [_id] a [new] document gets *)
  salt : string;                         (* the salt bcrypt draws *)
  process_env_JWT_SECRET : option string (* [process.env.JWT_SECRET] *)
}.

(** [process.env.JWT_SECRET || 'secretllavesecreta']. *)
Definition JWT_SECRET (env : Env) : string :=
  match truthy (process_env_JWT_SECRET env) with
  | Some secret => secret
  | None => "secretllavesecreta"
  end.

(** ** Catalog routes *)

(** The fields a catalog request may carry in [req.body]. *)
Module Req.
Record game := {
  title : option string;
  description : option string;
  price : option Z;
  coverUrl : option string;
  genre : option string;
  releaseDate : option string;
  createdBy : option string
}.
End Req.

(** A body that [express.json()] can hand over: its price, if it has one,
    is a number that JavaScript holds exactly. *)
Definition parsed (body : Req.game) : bool :=
  match Req.price body with
  | Some p => isSafeInteger p
  | None => true
  end.

(** [price || 0]: an absent price and the price 0 are falsy. *)
Definition or_zero (price : option Z) : Z :=
  match price with
  | Some p => if (p =? 0)%Z then 0%Z else p
  | None => 0%Z
  end.

(** [s || ''], and a schema default [''] for a field left undefined. *)
Definition or_empty (s : option string) : string :=
  match truthy s with Some s => s | None => "" end.

(** [game.save()] on a document made by [new Game]: the schema's
    validators ([title] is required; [price] is required and always set by
    the handler), then the insertion. *)
Definition Game_save_new (game : Game.doc) : M unit :=
  if String.eqb (Game.title game) "" then throw ValidationError
  else
    await roundtrip ;;
    modify (fun db => set_games (games db ++ [game]) db).

(** [releaseDate ? new Date(releaseDate) : null] on the [Date] path of a
    new document: an Invalid Date fails the cast, which [save] throws as a
    validation error. *)
Definition releaseDate_of {J : JsRuntime} (releaseDate : option string)
  : option (option Z) :=
  match truthy releaseDate with
  | None => Some None
  | Some text =>
      match new_Date text with
      | Some date => Some (Some date)
      | None => None
      end
  end.

(** [POST /api/games], after [authMiddleware].  A [createdBy] that is not
    an ObjectId and a [releaseDate] that is not a date are recorded by
    [new Game] and thrown by [save] before anything is sent to the store:
    nothing happens in between, so the two casts are written first. *)
Definition gameCreate {J : JsRuntime} (env : Env) (req_user : Payload)
    (body : Req.game) : Db -> Response * Db :=
  handler (
    match truthy (Req.title body) with
    | None => ret (res_status 400 (Message "Title required"))
    | Some title =>
        createdBy <- castId (claim_id (claims req_user)) ;;
        releaseDate <- match releaseDate_of (Req.releaseDate body) with
                       | Some date => ret date
                       | None => throw ValidationError
                       end ;;
        let game :=
          {| Game._id := fresh_id env;
             Game.title := title;
             Game.description := or_empty (Req.description body);
             Game.price := or_zero (Req.price body);
             Game.coverUrl := or_empty (Req.coverUrl body);
             Game.genre := or_empty (Req.genre body);
             Game.releaseDate := releaseDate;
             Game.createdBy := Some createdBy |} in
        await Game_save_new game ;;
        ret (res_json (GameJson game))
    end).

(** The update document of [findByIdAndUpdate] once mongoose has cast it
    against [gameSchema]: for each path the body carries, the value to
    set. *)
Module Update.
Record doc := {
  title : option string;
  description : option string;
  price : option Z;
  coverUrl : option string;
  genre : option string;
  releaseDate : option (option Z);
  createdBy : option ObjectId
}.
End Update.

Definition castPath {A B} (cast : A -> option B) (v : option A)
  : option (option B) :=
  match v with
  | None => Some None
  | Some a =>
      match cast a with
      | Some b => Some (Some b)
      | None => None
      end
  end.

(** The cast of the body of a PUT: the strings and the number are taken as
    they are, [releaseDate] is cast to a Date and [createdBy] to an
    ObjectId; [None] is a CastError. *)
Definition castUpdate {J : JsRuntime} (update : Req.game) : option Update.doc :=
  match castPath castDate (Req.releaseDate update),
        castPath castObjectId (Req.createdBy update) with
  | Some releaseDate, Some createdBy =>
      Some {| Update.title := Req.title update;
              Update.description := Req.description update;
              Update.price := Req.price update;
              Update.coverUrl := Req.coverUrl update;
              Update.genre := Req.genre update;
              Update.releaseDate := releaseDate;
              Update.createdBy := createdBy |}
  | _, _ => None
  end.

(** [$set] of the cast update: the paths it carries are set, the others
    stay; update validators are off. *)
Definition applyUpdate (update : Update.doc) (g : Game.doc) : Game.doc :=
  let keep {A} (new : option A) (old : A) : A :=
    match new with Some v => v | None => old end in
  {| Game._id := Game._id g;
     Game.title := keep (Update.title update) (Game.title g);
     Game.description := keep (Update.description update) (Game.description g);
     Game.price := keep (Update.price update) (Game.price g);
     Game.coverUrl := keep (Update.coverUrl update) (Game.coverUrl g);
     Game.genre := keep (Update.genre update) (Game.genre g);
     Game.releaseDate := keep (Update.releaseDate update) (Game.releaseDate g);
     Game.createdBy :=
       match Update.createdBy update with
       | Some by_ => Some by_
       | None => Game.createdBy g
       end |}.

(** [Game.findByIdAndUpdate(id, update, { new: true })]: the id and the
    update are cast before the call goes to the store. *)
Definition Game_findByIdAndUpdate {J : JsRuntime} (id : string)
    (update : Req.game) : M (option Game.doc) :=
  oid <- castId id ;;
  update <- match castUpdate update with
            | Some update => ret update
            | None => throw CastError
            end ;;
  await roundtrip ;;
  found <- gets (fun db => find (gameById oid) (games db)) ;;
  match found with
  | None => ret None
  | Some g =>
      let g' := applyUpdate update g in
      await modify (fun db =>
        set_games (replace_first (gameById oid) g' (games db)) db) ;;
      ret (Some g')
  end.

(** [PUT /api/games/:id], after [authMiddleware]: the whole [req.body] is
    the update. *)
Definition gameUpdate {J : JsRuntime} (id : string) (update : Req.game)
  : Db -> Response * Db :=
  handler (
    game <- Game_findByIdAndUpdate id update ;;
    match game with
    | None => ret (res_status 404 (Message "Not found"))
    | Some game => ret (res_json (GameJson game))
    end).

(** ** Credentials *)

(** [new User({ username, email, passwordHash })]: the schema lower-cases
    [email] and fills in [isAdmin] and [library]. *)
Definition new_User {J : JsRuntime} (id : ObjectId)
    (username email passwordHash : string) : User.doc :=
  {| User._id := id;
     User.username := username;
     User.email := toLowerCase email;
     User.passwordHash := passwordHash;
     User.isAdmin := false;
     User.library := [] |}.

(** The validators of [userSchema]: the three strings are required and
    [username] has [minlength: 3], which is tested on its [length]. *)
Definition validUser {J : JsRuntime} (u : User.doc) : bool :=
  negb (String.eqb (User.username u) "")
  && (3 <=? js_length (User.username u))%nat
  && negb (String.eqb (User.email u) "")
  && negb (String.eqb (User.passwordHash u) "").

(** The two [unique: true] indexes of [userSchema]. *)
Definition clashes (u : User.doc) (us : list User.doc) : bool :=
  existsb (fun v => String.eqb (User.username v) (User.username u)
                    || String.eqb (User.email v) (User.email u)) us.

(** [user.save()] on a document made by [new User]: validation, then the
    insertion, which the unique indexes may refuse. *)
Definition User_save_new {J : JsRuntime} (user : User.doc) : M unit :=
  if negb (validUser user) then throw ValidationError
  else
    await roundtrip ;;
    us <- gets users ;;
    if clashes user us then throw DuplicateKey
    else modify (fun db => set_users (us ++ [user]) db).

(** The filter [{ $or: [{ email }, { username }] }]: casting the query
    applies the schema's [lowercase] to the email condition. *)
Definition emailOrUsername_is {J : JsRuntime} (email username : string)
    (u : User.doc) : bool :=
  String.eqb (User.email u) (toLowerCase email)
  || String.eqb (User.username u) username.

(** [User.findOne(filter)]: the first document, in insertion order, that
    the filter accepts. *)
Definition User_findOne (filter : User.doc -> bool) : M (option User.doc) :=
  await roundtrip ;;
  gets (fun db => find filter (users db)).

Definition view (u : User.doc) : UserView :=
  {| view_id := toString (User._id u);
     view_username := User.username u;
     view_email := User.email u;
     view_isAdmin := User.isAdmin u |}.

Definition claims_of (u : User.doc) : Claims :=
  {| claim_id := toString (User._id u);
     claim_username := User.username u;
     claim_isAdmin := User.isAdmin u |}.

Definition saltRounds : nat := 10.

(** ['7d'], in seconds. *)
Definition expiresIn : Z := 604800.

(** ** bcrypt and jsonwebtoken

    [bcrypt.hash(password, rounds)] with the salt it draws,
    [bcrypt.compare(candidate, hash)], [jwt.sign(payload, secret,
    { expiresIn })] at a clock value and [jwt.verify(token, secret)] at a
    clock value ([None] when it throws).  [bcrypt_key password] is what
    bcrypt reads of a password: no more than its first 72 bytes. *)
Class CryptoLib := {
  bcrypt_key : string -> string;
  bcrypt_hash : string -> nat -> string -> string;
  bcrypt_compare : string -> string -> bool;
  jwt_sign : Claims -> string -> Z -> Z -> string;
  jwt_verify : string -> string -> Z -> option Payload
}.

(** The contract of the two libraries the proofs rely on: [compare]
    accepts the password that was hashed, and with it every text of which
    bcrypt reads the same; a digest is not empty; a token is a non-empty
    text without spaces; a signed token verifies under the key that signed
    it, until it expires, and then decodes to what was signed, and under no
    other key. *)
Class CryptoContract (L : CryptoLib) : Prop := {
  bcrypt_compare_hash : forall password candidate rounds salt,
    bcrypt_key candidate = bcrypt_key password ->
    bcrypt_compare candidate (bcrypt_hash password rounds salt) = true;
  bcrypt_hash_nonempty : forall password rounds salt,
    bcrypt_hash password rounds salt <> "";
  jwt_sign_compact : forall payload secret lifetime t,
    jwt_sign payload secret lifetime t <> ""
    /\ compact (jwt_sign payload secret lifetime t) = true;
  jwt_verify_sign : forall payload secret secret' lifetime t t',
    jwt_verify (jwt_sign payload secret lifetime t) secret' t'
    = if String.eqb secret secret' && (t' <? t + lifetime)%Z
      then Some {| claims := payload; iat := t; exp := (t + lifetime)%Z |}
      else None
}.

(** bcrypt as its users take it, which is how it is meant and not a fact
    about its code: it tells apart any two passwords that differ in what it
    reads of them, and it never gives a password back as its own digest. *)
Class BcryptIdeal (L : CryptoLib) : Prop := {
  bcrypt_compare_key : forall password candidate rounds salt,
    bcrypt_compare candidate (bcrypt_hash password rounds salt) = true ->
    bcrypt_key candidate = bcrypt_key password;
  bcrypt_hash_digest : forall password rounds salt,
    bcrypt_hash password rounds salt <> password
}.

Section Server.
Context {J : JsRuntime} {L : CryptoLib}.

(** [authMiddleware(req, res, next)]: the reply it sends, or the payload
    it leaves in [req.user] when it calls [next()]. *)
Definition authMiddleware (env : Env) (authorization : option string)
  : Response + Payload :=
  match truthy authorization with
  | None => inl (res_status 401 (Message "No token provided"))
  | Some authHeader =>
      match truthy (nth_error (split " " authHeader) 1) with
      | None => inl (res_status 401 (Message "Malformed token"))
      | Some token =>
          match jwt_verify token (JWT_SECRET env) (now env) with
          | Some payload => inr payload
          | None => inl (res_status 401 (Message "Invalid token"))
          end
      end
  end.

(** [app.METHOD(path, this.authMiddleware.bind(this), route)]. *)
Definition protected (env : Env) (authorization : option string)
    (route : Payload -> Db -> Response * Db) : Db -> Response * Db :=
  fun db =>
    match authMiddleware env authorization with
    | inl reply => (reply, db)
    | inr req_user => route req_user db
    end.

Definition session (env : Env) (user : User.doc) : Response :=
  let token := jwt_sign (claims_of user) (JWT_SECRET env) expiresIn (now env) in
  res_json (Session token (view user)).

(** [POST /api/auth/register]. *)
Definition register (env : Env) (username email password : option string)
  : Db -> Response * Db :=
  handler (
    match truthy username, truthy email, truthy password with
    | Some username, Some email, Some password =>
        existing <- User_findOne (emailOrUsername_is email username) ;;
        match existing with
        | Some _ =>
            ret (res_status 400 (Message "Email or username already in use"))
        | None =>
            let passwordHash := bcrypt_hash password saltRounds (salt env) in
            let user := new_User (fresh_id env) username email passwordHash in
            await User_save_new user ;;
            ret (session env user)
        end
    | _, _, _ => ret (res_status 400 (Message "Missing fields"))
    end).

(** [POST /api/auth/login]. *)
Definition login (env : Env) (emailOrUsername password : option string)
  : Db -> Response * Db :=
  handler (
    match truthy emailOrUsername, truthy password with
    | Some emailOrUsername, Some password =>
        user <- User_findOne (emailOrUsername_is emailOrUsername emailOrUsername) ;;
        match user with
        | None => ret (res_status 400 (Message "Invalid credentials"))
        | Some user =>
            if bcrypt_compare password (User.passwordHash user)
            then ret (session env user)
            else ret (res_status 400 (Message "Invalid credentials"))
        end
    | _, _ => ret (res_status 400 (Message "Missing fields"))
    end).

End Server.

(** ** A symbolic stand-in for the two libraries

    Digests and tokens are tagged records of what went into them, spelled
    with the four characters [.:01]: enough to run the handlers on examples
    and to show that [CryptoContract] and [BcryptIdeal] can be met. *)
Module Sym.

Definition bit (b : bool) : ascii := if b then "1"%char else "0"%char.

Definition bits (c : ascii) (rest : string) : string :=
  let (b0, b1, b2, b3, b4, b5, b6, b7) := c in
  String (bit b0) (String (bit b1) (String (bit b2) (String (bit b3)
    (String (bit b4) (String (bit b5) (String (bit b6) (String (bit b7)
      rest))))))).

Definition is_one (c : ascii) : bool := Ascii.eqb c "1".

(** [field], each character as a colon and its eight bits, a full stop,
    then [rest]. *)
Fixpoint quote (field rest : string) : string :=
  match field with
  | EmptyString => String "." rest
  | String c field' => String ":" (bits c (quote field' rest))
  end.

Fixpoint unquote (s : string) : option (string * string) :=
  match s with
  | String "." rest => Some (EmptyString, rest)
  | String ":" (String c0 (String c1 (String c2 (String c3
      (String c4 (String c5 (String c6 (String c7 s')))))))) =>
      match unquote s' with
      | Some (field, rest) =>
          Some (String (Ascii (is_one c0) (is_one c1) (is_one c2) (is_one c3)
                              (is_one c4) (is_one c5) (is_one c6) (is_one c7))
                       field,
                rest)
      | None => None
      end
  | _ => None
  end.

(** The first 72 bytes of a password. *)
Definition key (password : string) : string := String.substring 0 72 password.

(** The first character of a digest: a dollar sign, or a hash sign for a
    password that starts with a dollar sign. *)
Definition mark (password : string) : ascii :=
  match password with
  | String c _ => if Ascii.eqb c "$" then "#"%char else "$"%char
  | EmptyString => "$"%char
  end.

Definition hash (password : string) (rounds : nat) (salt : string) : string :=
  String (mark password)
    (quote salt (quote (HexString.of_nat rounds) (quote (key password) ""))).

Definition compare (candidate digest : string) : bool :=
  match digest with
  | String _ body =>
      match unquote body with
      | Some (_, rest) =>
          match unquote rest with
          | Some (_, rest') =>
              match unquote rest' with
              | Some (read, _) => String.eqb (key candidate) read
              | None => false
              end
          | None => false
          end
      | None => false
      end
  | EmptyString => false
  end.

Definition sign (payload : Claims) (secret : string) (lifetime t : Z) : string :=
  quote secret
    (quote (claim_id payload)
       (quote (claim_username payload)
          (String (bit (claim_isAdmin payload))
             (quote (HexString.of_Z t)
                (quote (HexString.of_Z (t + lifetime)) ""))))).

Definition verify (token secret : string) (t' : Z) : option Payload :=
  match unquote token with
  | Some (key, s1) =>
      match unquote s1 with
      | Some (id, s2) =>
          match unquote s2 with
          | Some (name, String flag s3) =>
              match unquote s3 with
              | Some (issued, s4) =>
                  match unquote s4 with
                  | Some (expires, _) =>
                      if String.eqb key secret
                         && (t' <? HexString.to_Z expires)%Z
                      then Some {| claims := {| claim_id := id;
                                                claim_username := name;
                                                claim_isAdmin := is_one flag |};
                                   iat := HexString.to_Z issued;
                                   exp := HexString.to_Z expires |}
                      else None
                  | None => None
                  end
              | None => None
              end
          | _ => None
          end
      | None => None
      end
  | None => None
  end.

Definition lib : CryptoLib :=
  {| bcrypt_key := key; bcrypt_hash := hash; bcrypt_compare := compare;
     jwt_sign := sign; jwt_verify := verify |}.

End Sym.

(** ** A stand-in for the runtime on Latin texts

    [toLowerCase] on the characters up to U+00FF: the letters A to Z and,
    in their two bytes of UTF-8, the letters U+00C0 to U+00DE without the
    multiplication sign; every other byte stays.  Of the dates only the
    year-only form of ISO 8601, ['YYYY'], is read: the runs below send no
    other. *)
Module Plain.

(** The second byte of a capital letter of U+00C0 to U+00DE. *)
Definition capital (d : ascii) : bool :=
  let n := nat_of_ascii d in
  ((128 <=? n) && (n <=? 158) && negb (n =? 151))%nat.

Fixpoint lower (s : string) : string :=
  match s with
  | EmptyString => EmptyString
  | String c s' =>
      match s' with
      | String d rest =>
          if ((nat_of_ascii c =? 195)%nat && capital d)%bool
          then String c (String (ascii_of_nat (nat_of_ascii d + 32)) (lower rest))
          else String (lowerChar c) (lower s')
      | EmptyString => String (lowerChar c) EmptyString
      end
  end.

Definition digit (c : ascii) : option Z :=
  let n := nat_of_ascii c in
  if ((48 <=? n) && (n <=? 57))%nat then Some (Z.of_nat (n - 48)) else None.

Definition year (s : string) : option Z :=
  match s with
  | String a (String b (String c (String d EmptyString))) =>
      match digit a, digit b, digit c, digit d with
      | Some a, Some b, Some c, Some d =>
          Some (1000 * a + 100 * b + 10 * c + d)%Z
      | _, _, _, _ => None
      end
  | _ => None
  end.

(** The days from 1 January 1970 to 1 January of a year. *)
Definition days (y : Z) : Z :=
  (365 * (y - 1970)
   + ((y - 1) / 4 - (y - 1) / 100 + (y - 1) / 400)
   - (1969 / 4 - 1969 / 100 + 1969 / 400))%Z.

Definition date (s : string) : option Z :=
  match year s with
  | Some y => Some (days y * 86400000)%Z
  | None => None
  end.

Definition cast (s : string) : option (option Z) :=
  match s with
  | EmptyString => Some None
  | _ => match date s with
         | Some d => Some (Some d)
         | None => None
         end
  end.

Definition js : JsRuntime :=
  {| toLowerCase := lower; new_Date := date; castDate := cast |}.

End Plain.

(** ** A run of the service, used to exercise the statements

    Ann registers, Bob registers with Ann's e-mail address as his username,
    a game is created and put in a library. *)
Module Run.

Definition clock (t : Z) (id : ObjectId) : Env :=
  {| now := t; fresh_id := id; salt := "c2FsdA";
     process_env_JWT_SECRET := None |}.

Definition ann_id : ObjectId := "64b7f0c2a1d3e4f5a6b7c8d9".
Definition bob_id : ObjectId := "64b7f0c2a1d3e4f5a6b7c8da".
Definition chess_id : ObjectId := "64b7f0c2a1d3e4f5a6b7c8db".
Definition go_id : ObjectId := "64b7f0c2a1d3e4f5a6b7c8dc".

Definition empty : Db := {| users := []; games := []; failures := [] |}.

Definition register_ann : Response * Db :=
  register (J := Plain.js) (L := Sym.lib) (clock 1000 ann_id)
    (Some "ann") (Some "Ann@X.com") (Some "p12345") empty.

Definition register_bob : Response * Db :=
  register (J := Plain.js) (L := Sym.lib) (clock 2000 bob_id)
    (Some "ann@x.com") (Some "bob@x.com") (Some "hunter2") (snd register_ann).

Definition ann : Payload :=
  {| claims := {| claim_id := ann_id; claim_username := "ann";
                  claim_isAdmin := false |};
     iat := 1000; exp := 605800 |}.

Definition titled (t : string) (p : option Z) : Req.game :=
  {| Req.title := Some t; Req.description := None; Req.price := p;
     Req.coverUrl := None; Req.genre := None; Req.releaseDate := None;
     Req.createdBy := None |}.

Definition create_chess : Response * Db :=
  gameCreate (J := Plain.js) (clock 3000 chess_id) ann (titled "Chess" None)
             (snd register_bob).

Definition add_chess : Response * Db :=
  libraryAdd ann (Some chess_id) (snd create_chess).

Definition populated : Db := snd add_chess.

End Run.

(** ** Read routes *)

(** [GET /api/games/:id]. *)
Definition gameGet (id : string) : Db -> Response * Db :=
  handler (
    game <- Game_findById id ;;
    match game with
    | None => ret (res_status 404 (Message "Not found"))
    | Some game => ret (res_json (GameJson game))
    end).

(** The reply of a route that sends an array of games with [res.json], or
    else a reply with a message. *)
Inductive Listing :=
| Games (games : list Game.doc)
| Refused (reply : Response).

(** The [try]/[catch] of such a route. *)
Definition listing_handler (body : M Listing) : Db -> Listing * Db :=
  fun db =>
    match body db with
    | (inr l, db') => (l, db')
    | (inl _, db') => (Refused (res_status 500 (Message "Server error")), db')
    end.

(** What [populate] puts in the place of one id: its game, or nothing. *)
Definition lookup_game (gs : list Game.doc) (id : ObjectId) : list Game.doc :=
  match find (gameById id) gs with
  | Some g => [g]
  | None => []
  end.

(** [.populate('library')] on a user that was found: one more query, for
    the games whose [_id] is in the array (none is sent for an empty array);
    each id is replaced by its game, in the order of the array, and an id
    without a game is dropped. *)
Definition populate_library (user : User.doc) : M (list Game.doc) :=
  match User.library user with
  | [] => ret []
  | ids =>
      await roundtrip ;;
      gets (fun db => flat_map (lookup_game (games db)) ids)
  end.

(** [GET /api/library], after [authMiddleware]. *)
Definition libraryGet (req_user : Payload) : Db -> Listing * Db :=
  listing_handler (
    user <- User_findById (claim_id (claims req_user)) ;;
    match user with
    | None => ret (Refused (res_status 404 (Message "User not found")))
    | Some user =>
        library <- populate_library user ;;
        ret (Games library)
    end).

(** ** Two conditions on the store *)

(** Every id in a library is the [_id] of a game of the catalog. *)
Definition resolved (db : Db) : Prop :=
  forall u id,
    In u (users db) -> In id (User.library u) ->
    exists g, In g (games db) /\ Game._id g = id.

(** No library holds an id twice. *)
Definition distinct (db : Db) : Prop :=
  forall u, In u (users db) -> NoDup (User.library u).

(** ** More of the run

    After [Run]: Ann's library is listed, the game is renamed, found again
    and deleted. *)
Module Tour.

Definition rename : Req.game :=
  {| Req.title := Some "Chess 960"; Req.description := None;
     Req.price := Some 3%Z; Req.coverUrl := None; Req.genre := None;
     Req.releaseDate := None; Req.createdBy := None |}.

Definition blank_title : Req.game :=
  {| Req.title := Some ""; Req.description := None; Req.price := None;
     Req.coverUrl := None; Req.genre := None; Req.releaseDate := None;
     Req.createdBy := None |}.

(** An empty title and a release date that is no date. *)
Definition undated : Req.game :=
  {| Req.title := Some ""; Req.description := None; Req.price := None;
     Req.coverUrl := None; Req.genre := None; Req.releaseDate := Some "soon";
     Req.createdBy := None |}.

Definition update_chess : Response * Db :=
  gameUpdate (J := Plain.js) Run.chess_id rename Run.populated.

Definition delete_chess : Response * Db :=
  gameDelete Run.chess_id Run.populated.

Definition remove_chess : Response * Db :=
  libraryRemove Run.ann (Some Run.chess_id) Run.populated.

Definition ann_token : string :=
  match json (fst Run.register_ann) with
  | Session token _ => token
  | _ => ""
  end.

Definition shouted : string := "64B7F0C2A1D3E4F5A6B7C8DB".

Definition create_go : Response * Db :=
  gameCreate (J := Plain.js) (Run.clock 4000 Run.go_id) Run.ann
             (Run.titled "Go" (Some 5%Z)) Run.populated.

Definition add_go : Response * Db :=
  libraryAdd Run.ann (Some Run.go_id) (snd create_go).

Definition delete_one : Response * Db :=
  gameDelete Run.chess_id (snd add_go).

Definition chess : Game.doc :=
  {| Game._id := Run.chess_id; Game.title := "Chess"; Game.description := "";
     Game.price := 0%Z; Game.coverUrl := ""; Game.genre := "";
     Game.releaseDate := None; Game.createdBy := Some Run.ann_id |}.

Definition cyd_id : ObjectId := "64b7f0c2a1d3e4f5a6b7c8dd".

Definition register_cyd : Response * Db :=
  register (J := Plain.js) (L := Sym.lib) (Run.clock 5000 cyd_id)
    (Some "cyd") (Some "Cyd@X.com") (Some "s3cret") Run.populated.

Definition cyd_token : string :=
  match json (fst register_cyd) with
  | Session token _ => token
  | _ => ""
  end.

Definition cyd_view : UserView :=
  {| view_id := cyd_id; view_username := "cyd"; view_email := "cyd@x.com";
     view_isAdmin := false |}.

Definition root : Claims :=
  {| claim_id := Run.bob_id; claim_username := "root"; claim_isAdmin := true |}.

Definition go : Game.doc :=
  {| Game._id := Run.go_id; Game.title := "Go"; Game.description := "";
     Game.price := 5%Z; Game.coverUrl := ""; Game.genre := "";
     Game.releaseDate := None; Game.createdBy := Some Run.ann_id |}.

End Tour.

(** * Properties *)

(** Case analysis along a handler: split on the next scrutinee. *)
Ltac branch :=
  match goal with
  | |- context [match ?x with _ => _ end] =>
      lazymatch x with
      | context [match _ with _ => _ end] => fail
      | _ => destruct x eqn:?
      end
  | H : context [match ?x with _ => _ end] |- _ =>
      lazymatch x with
      | context [match _ with _ => _ end] => fail
      | _ => destruct x eqn:?
      end
  end.

Ltac run :=
  unfold handler, bind, ret, throw, gets, modify, castId, roundtrip,
    res_json, res_status in *; simpl in *.

(** ** Small facts about the runtime model *)

Lemma includes_In (o : ObjectId) (l : list ObjectId) :
  includes o l = true <-> In o l.
Proof.
  unfold includes. rewrite existsb_exists. split.
  - intros [x [Hin Heq]]. apply String.eqb_eq in Heq. now subst.
  - intros Hin. exists o. split; [assumption | apply String.eqb_refl].
Qed.

Lemma includes_not_In (o : ObjectId) (l : list ObjectId) :
  includes o l = false <-> ~ In o l.
Proof.
  rewrite <- includes_In. destruct (includes o l); split; congruence.
Qed.

Lemma pull_In (gid h : ObjectId) (l : list ObjectId) :
  In h (pull gid l) <-> In h l /\ h <> gid.
Proof.
  unfold pull. rewrite filter_In, negb_true_iff, String.eqb_neq. reflexivity.
Qed.

Lemma pull_absent (gid : ObjectId) (l : list ObjectId) :
  ~ In gid l -> pull gid l = l.
Proof.
  induction l as [|h l IH]; simpl; intros Hnot; [reflexivity|].
  destruct (String.eqb_spec h gid) as [->|Hne]; simpl.
  - exfalso. apply Hnot. now left.
  - f_equal. apply IH. intros Hin. apply Hnot. now right.
Qed.

Lemma castObjectId_nonempty (s : string) (o : ObjectId) :
  castObjectId s = Some o -> truthy (Some s) = Some s.
Proof.
  destruct s; [discriminate | reflexivity].
Qed.

Lemma truthy_Some (v : option string) (s : string) :
  truthy v = Some s <-> v = Some s /\ s <> "".
Proof.
  destruct v as [[|c r]|]; simpl; split.
  all: try discriminate.
  all: try (intros [H1 H2]; inversion H1; subst; congruence).
  intros H; inversion H; subst. split; [reflexivity | discriminate].
Qed.

Lemma roundtrip_ok (db : Db) :
  failures db = [] -> roundtrip db = (inr tt, db).
Proof. unfold roundtrip. now intros ->. Qed.

Lemma byId_true (oid : ObjectId) (u : User.doc) :
  byId oid u = true <-> User._id u = oid.
Proof. apply String.eqb_eq. Qed.

Lemma gameById_true (oid : ObjectId) (g : Game.doc) :
  gameById oid g = true <-> Game._id g = oid.
Proof. apply String.eqb_eq. Qed.

(** After [user.save()] the store answers [findById] with the saved
    document. *)
Lemma find_saved (uid : ObjectId) (old new : User.doc) (us : list User.doc) :
  find (byId uid) us = Some old ->
  User._id new = uid ->
  find (byId uid) (replace_first (byId uid) new us) = Some new.
Proof.
  intros Hfind Hid. apply byId_true in Hid.
  induction us as [|u us IH]; simpl in *; [discriminate|].
  destruct (byId uid u) eqn:E; simpl.
  - now rewrite Hid.
  - rewrite E. now apply IH.
Qed.

Lemma find_Some_In {A} (p : A -> bool) (l : list A) (x : A) :
  In x l -> p x = true -> exists y, find p l = Some y.
Proof.
  induction l as [|a l IH]; simpl; [contradiction|].
  intros [->|Hin] Hp.
  - rewrite Hp. now exists x.
  - destruct (p a); [now exists a | now apply IH].
Qed.

(** The reads of the library routes, on a store that answers. *)
Lemma User_findById_ok (id : string) (uid : ObjectId) (db : Db) :
  failures db = [] -> castObjectId id = Some uid ->
  User_findById id db = (inr (find (byId uid) (users db)), db).
Proof.
  intros Hf Hc. unfold User_findById, castId, bind, gets. rewrite Hc.
  unfold ret. now rewrite (roundtrip_ok _ Hf).
Qed.

Lemma Game_findById_ok (id : string) (gid : ObjectId) (db : Db) :
  failures db = [] -> castObjectId id = Some gid ->
  Game_findById id db = (inr (find (gameById gid) (games db)), db).
Proof.
  intros Hf Hc. unfold Game_findById, castId, bind, gets. rewrite Hc.
  unfold ret. now rewrite (roundtrip_ok _ Hf).
Qed.

Lemma User_save_ok (user : User.doc) (db : Db) :
  failures db = [] ->
  User_save user db =
  (inr tt, set_users (replace_first (byId (User._id user)) user (users db)) db).
Proof.
  intros Hf. unfold User_save, bind, modify. now rewrite (roundtrip_ok _ Hf).
Qed.

(** ** The library relation *)

Lemma libraryAdd_present (req_user : Payload) (gid : string) (db : Db)
      (oid uid : ObjectId) (game : Game.doc) (user : User.doc) :
  failures db = [] ->
  castObjectId gid = Some oid ->
  find (gameById oid) (games db) = Some game ->
  castObjectId (claim_id (claims req_user)) = Some uid ->
  find (byId uid) (users db) = Some user ->
  In (Game._id game) (User.library user) ->
  libraryAdd req_user (Some gid) db
  = (res_status 400 (Message "Already in library"), db).
Proof.
  intros Hf Hg Hgame Hu Huser Hin.
  unfold libraryAdd, handler, bind.
  rewrite (castObjectId_nonempty _ _ Hg).
  rewrite (Game_findById_ok _ _ _ Hf Hg), Hgame.
  rewrite (User_findById_ok _ _ _ Hf Hu), Huser.
  apply includes_In in Hin. now rewrite Hin.
Qed.

(** What a successful add did. *)
Lemma libraryAdd_added (req_user : Payload) (gameId : option string)
      (db db' : Db) (r : Response) :
  failures db = [] ->
  libraryAdd req_user gameId db = (r, db') ->
  status r = 200 ->
  exists gid oid uid game user,
    truthy gameId = Some gid /\
    castObjectId gid = Some oid /\
    find (gameById oid) (games db) = Some game /\
    castObjectId (claim_id (claims req_user)) = Some uid /\
    find (byId uid) (users db) = Some user /\
    ~ In (Game._id game) (User.library user) /\
    r = res_json (LibraryJson "Added" (User.library user ++ [Game._id game])) /\
    db' = set_users
            (replace_first (byId uid)
               (User.set_library user (User.library user ++ [Game._id game]))
               (users db)) db.
Proof.
  intros Hf Hrun Hst. unfold libraryAdd, handler, bind in Hrun.
  destruct (truthy gameId) as [gid|] eqn:Egid;
    [| inversion Hrun; subst; discriminate].
  destruct (castObjectId gid) as [oid|] eqn:Eoid.
  2:{ unfold Game_findById, castId, bind, throw in Hrun. rewrite Eoid in Hrun.
      inversion Hrun; subst; discriminate. }
  rewrite (Game_findById_ok _ _ _ Hf Eoid) in Hrun.
  destruct (find (gameById oid) (games db)) as [game|] eqn:Egame;
    [| inversion Hrun; subst; discriminate].
  destruct (castObjectId (claim_id (claims req_user))) as [uid|] eqn:Euid.
  2:{ unfold User_findById, castId, bind, throw in Hrun. rewrite Euid in Hrun.
      inversion Hrun; subst; discriminate. }
  rewrite (User_findById_ok _ _ _ Hf Euid) in Hrun.
  destruct (find (byId uid) (users db)) as [user|] eqn:Euser;
    [| inversion Hrun; subst; discriminate].
  destruct (includes (Game._id game) (User.library user)) eqn:Einc;
    [inversion Hrun; subst; discriminate |].
  rewrite (User_save_ok _ _ Hf) in Hrun. unfold ret in Hrun.
  inversion Hrun; subst; clear Hrun.
  exists gid, oid, uid, game, user.
  apply includes_not_In in Einc.
  assert (Hid : User._id user = uid).
  { apply find_some in Euser. now apply byId_true. }
  simpl. rewrite Hid. repeat split; assumption || reflexivity.
Qed.

(** C3. On a store that answers: if the game exists, the user exists and
    the game's id is already in the user's library, [add] replies
    400 'Already in library' and writes nothing; and when an [add] has
    succeeded, the same [add] sent again right after it gets that reply. *)
Theorem libraryAdd_twice (req_user : Payload) (db : Db) :
  failures db = [] ->
  (forall gid oid uid game user,
      castObjectId gid = Some oid ->
      find (gameById oid) (games db) = Some game ->
      castObjectId (claim_id (claims req_user)) = Some uid ->
      find (byId uid) (users db) = Some user ->
      In (Game._id game) (User.library user) ->
      libraryAdd req_user (Some gid) db
      = (res_status 400 (Message "Already in library"), db))
  /\
  (forall gameId r db',
      libraryAdd req_user gameId db = (r, db') ->
      status r = 200 ->
      libraryAdd req_user gameId db'
      = (res_status 400 (Message "Already in library"), db')).
Proof.
  intros Hf. split.
  - intros gid oid uid game user. now apply libraryAdd_present.
  - intros gameId r db' Hrun Hst.
    destruct (libraryAdd_added _ _ _ _ _ Hf Hrun Hst)
      as (gid & oid & uid & game & user & Hgid & Hoid & Hgame & Huid & Huser
          & Hnot & -> & ->).
    apply truthy_Some in Hgid. destruct Hgid as [-> _].
    set (user' := User.set_library user (User.library user ++ [Game._id game])).
    apply (libraryAdd_present req_user gid _ oid uid game user');
      try assumption.
    + assert (Hid : User._id user = uid).
      { apply find_some in Huser. now apply byId_true. }
      exact (find_saved uid user user' (users db) Huser Hid).
    + simpl. apply in_or_app. right. now left.
Qed.

Lemma libraryAdd_twice_witness :
  fst (libraryAdd Run.ann (Some Run.chess_id) Run.populated)
  = res_status 400 (Message "Already in library").
Proof.
  assert (Hf : failures (snd Run.create_chess) = []) by reflexivity.
  assert (Hrun : libraryAdd Run.ann (Some Run.chess_id) (snd Run.create_chess)
                 = (fst Run.add_chess, Run.populated)) by reflexivity.
  assert (Hst : status (fst Run.add_chess) = 200) by reflexivity.
  exact (f_equal fst
           (proj2 (libraryAdd_twice Run.ann (snd Run.create_chess) Hf)
                  (Some Run.chess_id) (fst Run.add_chess) Run.populated
                  Hrun Hst)).
Defined.

(** C10. Whenever [add] does not reply 200, its reply is one of the four
    refusals (gameId missing, game not found, user not found, already in
    the library) or the 500 of an exception, and both collections are as
    they were: no error branch comes after a write. *)
Theorem libraryAdd_failure_unchanged
        (req_user : Payload) (gameId : option string) (db : Db) :
  status (fst (libraryAdd req_user gameId db)) <> 200 ->
  users (snd (libraryAdd req_user gameId db)) = users db
  /\ games (snd (libraryAdd req_user gameId db)) = games db
  /\ In (fst (libraryAdd req_user gameId db))
        [res_status 400 (Message "gameId required");
         res_status 404 (Message "Game not found");
         res_status 404 (Message "User not found");
         res_status 400 (Message "Already in library");
         res_status 500 (Message "Server error")].
Proof.
  unfold libraryAdd, Game_findById, User_findById, User_save. run.
  intros H.
  repeat (branch; run; try congruence).
  all: repeat match goal with
         | E : (_, _) = (_, _) |- _ => inversion E; subst; clear E
         end; simpl in *; try congruence.
  all: split; [reflexivity | split; [reflexivity | tauto]].
Qed.

Lemma libraryAdd_failure_unchanged_witness :
  users (snd (libraryAdd Run.ann (Some Run.go_id) Run.populated))
  = users Run.populated
  /\ games (snd (libraryAdd Run.ann (Some Run.go_id) Run.populated))
     = games Run.populated
  /\ In (fst (libraryAdd Run.ann (Some Run.go_id) Run.populated))
        [res_status 400 (Message "gameId required");
         res_status 404 (Message "Game not found");
         res_status 404 (Message "User not found");
         res_status 400 (Message "Already in library");
         res_status 500 (Message "Server error")].
Proof.
  apply libraryAdd_failure_unchanged. vm_compute. discriminate.
Defined.

Lemma libraryRemove_found (req_user : Payload) (gid : string) (db : Db)
      (uid : ObjectId) (user : User.doc) :
  failures db = [] ->
  gid <> "" ->
  castObjectId (claim_id (claims req_user)) = Some uid ->
  find (byId uid) (users db) = Some user ->
  let user' := User.set_library user (pull gid (User.library user)) in
  libraryRemove req_user (Some gid) db
  = (res_json (LibraryJson "Removed" (User.library user')),
     set_users (replace_first (byId uid) user' (users db)) db).
Proof.
  intros Hf Hne Hu Huser user'.
  unfold libraryRemove, handler, bind.
  replace (truthy (Some gid)) with (Some gid)
    by (symmetry; apply truthy_Some; now split).
  rewrite (User_findById_ok _ _ _ Hf Hu), Huser.
  rewrite (User_save_ok _ _ Hf). unfold ret. simpl.
  assert (Hid : User._id user = uid).
  { apply find_some in Huser. now apply byId_true. }
  now rewrite Hid.
Qed.

(** What [remove] does for the text it is sent.  On a store that answers,
    for an existing user and a game id [g] sent as the server prints it:
    [remove] replies 200 'Removed' with the library it has saved, which no
    longer holds [g] and holds every other id it held; when [g] was not in
    the library, that library is the old one. *)
Lemma libraryRemove_spec (req_user : Payload) (g : ObjectId) (db : Db)
        (uid : ObjectId) (user : User.doc) :
  failures db = [] ->
  toString g <> "" ->
  castObjectId (claim_id (claims req_user)) = Some uid ->
  find (byId uid) (users db) = Some user ->
  exists library' user',
    libraryRemove req_user (Some (toString g)) db
    = (res_json (LibraryJson "Removed" library'),
       set_users (replace_first (byId uid) user' (users db)) db)
    /\ find (byId uid) (replace_first (byId uid) user' (users db)) = Some user'
    /\ User.library user' = library'
    /\ ~ In g library'
    /\ (forall h, h <> g -> (In h library' <-> In h (User.library user)))
    /\ (~ In g (User.library user) -> library' = User.library user).
Proof.
  intros Hf Hne Hu Huser.
  exists (pull g (User.library user)),
         (User.set_library user (pull g (User.library user))).
  split; [exact (libraryRemove_found _ _ _ _ _ Hf Hne Hu Huser) |].
  split.
  { apply (find_saved uid user); [assumption |].
    simpl. apply find_some in Huser. now apply byId_true. }
  split; [reflexivity |].
  split; [intros Hin; apply pull_In in Hin; now destruct Hin |].
  split.
  - intros h Hh. rewrite pull_In. tauto.
  - apply pull_absent.
Qed.

Lemma libraryRemove_spec_run :
  exists library' user',
    libraryRemove Run.ann (Some (toString Run.chess_id)) Run.populated
    = (res_json (LibraryJson "Removed" library'),
       set_users (replace_first (byId Run.ann_id) user' (users Run.populated))
                 Run.populated)
    /\ find (byId Run.ann_id)
            (replace_first (byId Run.ann_id) user' (users Run.populated))
       = Some user'
    /\ User.library user' = library'
    /\ ~ In Run.chess_id library'
    /\ (forall h, h <> Run.chess_id ->
          (In h library'
           <-> In h [Run.chess_id]))
    /\ (~ In Run.chess_id [Run.chess_id] -> library' = [Run.chess_id]).
Proof.
  apply (libraryRemove_spec Run.ann Run.chess_id Run.populated Run.ann_id
           (User.set_library
              (new_User (J := Plain.js) Run.ann_id "ann" "ann@x.com"
                        (Sym.hash "p12345" saltRounds "c2FsdA"))
              [Run.chess_id])).
  - reflexivity.
  - discriminate.
  - reflexivity.
  - reflexivity.
Qed.

(** C4 at an id of the library that is sent in upper case.  Ann's library
    holds the game; the text names that game, and [add] answers so; [remove]
    with the same text is answered 200 'Removed', and the id is still in
    the library it shows and in the store. *)
Lemma libraryRemove_shouted_stays :
  map User.library (users Run.populated) = [[Run.chess_id]; []]
  /\ castObjectId Tour.shouted = Some Run.chess_id
  /\ libraryAdd Run.ann (Some Tour.shouted) Run.populated
     = (res_status 400 (Message "Already in library"), Run.populated)
  /\ libraryRemove Run.ann (Some Tour.shouted) Run.populated
     = (res_json (LibraryJson "Removed" [Run.chess_id]), Run.populated).
Proof. vm_compute. repeat split. Qed.

(** C9. [remove] never looks at the catalog: its reply is the same
    whatever the games collection holds.  With a store that answers and a
    non-empty gameId it replies 200 'Removed' when the user exists and
    404 'User not found' when not, also for an id that names no game,
    where [add] replies 404 'Game not found'. *)
Theorem libraryRemove_ignores_catalog
        (req_user : Payload) (gameId : option string) (db : Db) :
  (forall gs,
      fst (libraryRemove req_user gameId (set_games gs db))
      = fst (libraryRemove req_user gameId db))
  /\
  (forall gid uid,
      failures db = [] ->
      truthy gameId = Some gid ->
      castObjectId (claim_id (claims req_user)) = Some uid ->
      (forall user,
          find (byId uid) (users db) = Some user ->
          fst (libraryRemove req_user gameId db)
          = res_json (LibraryJson "Removed" (pull gid (User.library user))))
      /\ (find (byId uid) (users db) = None ->
          fst (libraryRemove req_user gameId db)
          = res_status 404 (Message "User not found"))
      /\ (forall oid,
          castObjectId gid = Some oid ->
          find (gameById oid) (games db) = None ->
          fst (libraryAdd req_user gameId db)
          = res_status 404 (Message "Game not found"))).
Proof.
  split.
  - intros gs. unfold libraryRemove, User_findById, User_save. run.
    repeat (branch; run; try reflexivity; try congruence).
    all: repeat match goal with
           | E : (_, _) = (_, _) |- _ => inversion E; subst; clear E
           end; simpl in *; try reflexivity; try congruence.
  - intros gid uid Hf Hgid Hu.
    apply truthy_Some in Hgid. destruct Hgid as [-> Hne].
    split; [| split].
    + intros user Huser.
      now rewrite (libraryRemove_found _ _ _ _ _ Hf Hne Hu Huser).
    + intros Hnone. unfold libraryRemove, handler, bind.
      replace (truthy (Some gid)) with (Some gid)
        by (symmetry; apply truthy_Some; now split).
      now rewrite (User_findById_ok _ _ _ Hf Hu), Hnone.
    + intros oid Hoid Hnone. unfold libraryAdd, handler, bind.
      rewrite (castObjectId_nonempty _ _ Hoid).
      now rewrite (Game_findById_ok _ _ _ Hf Hoid), Hnone.
Qed.

Lemma libraryRemove_ignores_catalog_witness :
  fst (libraryRemove Run.ann (Some Run.go_id) Run.populated)
  = res_json (LibraryJson "Removed" [Run.chess_id])
  /\ fst (libraryAdd Run.ann (Some Run.go_id) Run.populated)
     = res_status 404 (Message "Game not found").
Proof.
  pose proof (proj2 (libraryRemove_ignores_catalog
                       Run.ann (Some Run.go_id) Run.populated)
                    Run.go_id Run.ann_id eq_refl eq_refl eq_refl)
    as [Hfound [_ Hadd]].
  split.
  - exact (Hfound _ eq_refl).
  - exact (Hadd Run.go_id eq_refl eq_refl).
Defined.

(** ** The cascade of a catalog delete *)

Lemma pulled_everywhere (gid : ObjectId) (us : list User.doc) (u : User.doc) :
  In u (map (fun u => if includes gid (User.library u)
                      then User.set_library u (pull gid (User.library u))
                      else u) us) ->
  ~ In gid (User.library u).
Proof.
  rewrite in_map_iff. intros [v [Hv _]].
  destruct (includes gid (User.library v)) eqn:E; subst u.
  - simpl. rewrite pull_In. tauto.
  - now apply includes_not_In.
Qed.

(** C1. Whenever [DELETE /api/games/:id] replies 200 'Deleted', the id
    named a game of the catalog and, in the store left behind, no user's
    library holds that game's id; and on a store that answers, deleting a
    game of the catalog does get that reply. *)
Theorem gameDelete_cascade (id : string) (db : Db) :
  (forall r db',
      gameDelete id db = (r, db') ->
      status r = 200 ->
      r = res_json (Message "Deleted")
      /\ exists game,
           In game (games db)
           /\ castObjectId id = Some (Game._id game)
           /\ forall u, In u (users db') -> ~ In (Game._id game) (User.library u))
  /\
  (forall gid game,
      failures db = [] ->
      castObjectId id = Some gid ->
      find (gameById gid) (games db) = Some game ->
      fst (gameDelete id db) = res_json (Message "Deleted")).
Proof.
  split.
  - intros r db' Hrun Hst.
    unfold gameDelete, Game_findByIdAndDelete, User_updateMany_pull in Hrun.
    run.
    destruct (castObjectId id) as [gid|] eqn:Hgid;
      [| inversion Hrun; subst; discriminate].
    repeat (branch; run);
      repeat match goal with
        | E : (_, _) = (_, _) |- _ => inversion E; subst; clear E
        end; simpl in *; try discriminate.
    all: split; [reflexivity |].
    all: match goal with
         | E : find (gameById _) _ = Some ?g |- _ =>
             exists g; pose proof (find_some _ _ E) as [Hin Hid];
             apply gameById_true in Hid; rewrite Hid;
             split; [exact Hin | split; [reflexivity |]]
         end.
    all: intros u Hu; eapply pulled_everywhere; exact Hu.
  - intros gid game Hf Hgid Hgame.
    destruct db as [us gs fs]. simpl in Hf, Hgame. subst fs.
    unfold gameDelete, Game_findByIdAndDelete, User_updateMany_pull. run.
    rewrite Hgid. simpl. now rewrite Hgame.
Qed.

(** The cascade is a second call: when the store rejects it the game is
    gone, the library still names it, and the reply is 500, not 'Deleted'. *)
Example gameDelete_cascade_rejected :
  let (reply, db') :=
    gameDelete Run.chess_id (set_failures [false; true] Run.populated) in
  reply = res_status 500 (Message "Server error")
  /\ games db' = []
  /\ map User.library (users db') = [[Run.chess_id]; []].
Proof. vm_compute. repeat split. Qed.

Lemma gameDelete_cascade_witness :
  fst (gameDelete Run.chess_id Run.populated) = res_json (Message "Deleted")
  /\ exists game,
       In game (games Run.populated)
       /\ castObjectId Run.chess_id = Some (Game._id game)
       /\ forall u, In u (users (snd (gameDelete Run.chess_id Run.populated))) ->
                    ~ In (Game._id game) (User.library u).
Proof.
  exact (proj1 (gameDelete_cascade Run.chess_id Run.populated)
               (fst (gameDelete Run.chess_id Run.populated))
               (snd (gameDelete Run.chess_id Run.populated))
               eq_refl eq_refl).
Defined.

(** ** Prices in the catalog *)

Lemma or_zero_given (price : option Z) :
  or_zero price = match price with Some p => p | None => 0%Z end.
Proof.
  destruct price as [p|]; simpl; [| reflexivity].
  destruct (Z.eqb_spec p 0); congruence.
Qed.

Lemma replace_first_In {A} (p : A -> bool) (new old : A) (l : list A) :
  find p l = Some old -> In new (replace_first p new l).
Proof.
  induction l as [|x l IH]; simpl; [discriminate|].
  destruct (p x); intros H; [now left | right; now apply IH].
Qed.

(** C2, as the code has it.  On a store that answers, for a body whose
    price is a whole number that JavaScript holds exactly: [create] with a
    title, and
    with a [releaseDate] that is absent or a date, stores the game with the
    price [price || 0], which is 0 when the body has no price and the price
    of the body otherwise, whatever its sign; [update] with a body that
    casts to the schema and carries a price stores that price, whatever its
    sign.  So the stored price is negative exactly when the price sent
    is. *)
Theorem price_stored_as_sent {J : JsRuntime} (body : Req.game) (db : Db) :
  failures db = [] ->
  parsed body = true ->
  (forall env req_user title uid date,
      truthy (Req.title body) = Some title ->
      castObjectId (claim_id (claims req_user)) = Some uid ->
      releaseDate_of (Req.releaseDate body) = Some date ->
      exists game,
        gameCreate env req_user body db
        = (res_json (GameJson game), set_games (games db ++ [game]) db)
        /\ Game.price game
           = match Req.price body with Some p => p | None => 0%Z end)
  /\
  (forall id oid old p update,
      castObjectId id = Some oid ->
      find (gameById oid) (games db) = Some old ->
      castUpdate body = Some update ->
      Req.price body = Some p ->
      exists game,
        gameUpdate id body db
        = (res_json (GameJson game),
           set_games (replace_first (gameById oid) game (games db)) db)
        /\ In game (replace_first (gameById oid) game (games db))
        /\ Game.price game = p).
Proof.
  intros Hf _. destruct db as [us gs fs]. simpl in Hf. subst fs. split.
  - intros env req_user title uid date Htitle Hu Hdate.
    eexists. split.
    + unfold gameCreate, Game_save_new. run. rewrite Htitle, Hu. simpl.
      rewrite Hdate. simpl.
      apply truthy_Some in Htitle. destruct Htitle as [_ Hne].
      apply String.eqb_neq in Hne. rewrite Hne. simpl. reflexivity.
    + simpl. apply or_zero_given.
  - intros id oid old p update Hoid Hold Hcast Hp. simpl in Hold.
    exists (applyUpdate update old). split; [| split].
    + unfold gameUpdate, Game_findByIdAndUpdate. run.
      rewrite Hoid. simpl. rewrite Hcast. simpl. now rewrite Hold.
    + simpl. eapply replace_first_In; eassumption.
    + unfold castUpdate in Hcast.
      destruct (castPath castDate (Req.releaseDate body)); [| discriminate].
      destruct (castPath castObjectId (Req.createdBy body)); [| discriminate].
      inversion Hcast; subst. simpl. now rewrite Hp.
Qed.

Lemma price_stored_as_sent_witness :
  (exists game,
     gameCreate (J := Plain.js) (Run.clock 4000 Run.go_id) Run.ann
                (Run.titled "Go" (Some (-5)%Z)) Run.populated
     = (res_json (GameJson game),
        set_games (games Run.populated ++ [game]) Run.populated)
     /\ Game.price game = (-5)%Z)
  /\ (exists game,
        gameUpdate (J := Plain.js) Run.chess_id (Run.titled "Chess" (Some (-5)%Z))
                   Run.populated
        = (res_json (GameJson game),
           set_games (replace_first (gameById Run.chess_id) game
                        (games Run.populated)) Run.populated)
        /\ In game (replace_first (gameById Run.chess_id) game
                      (games Run.populated))
        /\ Game.price game = (-5)%Z).
Proof.
  split.
  - exact (proj1 (price_stored_as_sent (J := Plain.js)
                    (Run.titled "Go" (Some (-5)%Z)) Run.populated
                    eq_refl eq_refl)
                 (Run.clock 4000 Run.go_id) Run.ann "Go" Run.ann_id None
                 eq_refl eq_refl eq_refl).
  - exact (proj2 (price_stored_as_sent (J := Plain.js)
                    (Run.titled "Chess" (Some (-5)%Z)) Run.populated
                    eq_refl eq_refl)
                 Run.chess_id Run.chess_id Tour.chess (-5)%Z
                 {| Update.title := Some "Chess"; Update.description := None;
                    Update.price := Some (-5)%Z; Update.coverUrl := None;
                    Update.genre := None; Update.releaseDate := None;
                    Update.createdBy := None |}
                 eq_refl eq_refl eq_refl eq_refl).
Defined.

(** C2 as stated fails: a create request with the price -5 is answered
    200 and leaves a Game with a negative price in the catalog. *)
Lemma negative_price_created :
  let (reply, db') :=
    gameCreate (J := Plain.js) (Run.clock 4000 Run.go_id) Run.ann
               (Run.titled "Go" (Some (-5)%Z)) Run.populated in
  status reply = 200
  /\ exists game, In game (games db') /\ (Game.price game < 0)%Z.
Proof.
  vm_compute. split; [reflexivity |].
  eexists. split; [right; left; reflexivity | reflexivity].
Qed.

(** The date of a create: the year-only text is stored as the time value
    of that year's first instant; a text that is no date is refused when the
    game is saved, the reply is 500 and nothing is stored. *)
Example gameCreate_dates :
  let dated (d : string) : Req.game :=
    {| Req.title := Some "Go"; Req.description := None; Req.price := None;
       Req.coverUrl := None; Req.genre := None; Req.releaseDate := Some d;
       Req.createdBy := None |} in
  let create (d : string) :=
    gameCreate (J := Plain.js) (Run.clock 4000 Run.go_id) Run.ann (dated d)
               Run.populated in
  map Game.releaseDate (games (snd (create "2020"))) = [None; Some 1577836800000%Z]
  /\ create "soon" = (res_status 500 (Message "Server error"), Run.populated).
Proof. vm_compute. split; reflexivity. Qed.

(** ** The symbolic libraries meet the contract *)

Lemma unquote_quote (field rest : string) :
  Sym.unquote (Sym.quote field rest) = Some (field, rest).
Proof.
  induction field as [|c field IH]; [reflexivity |].
  destruct c as [[] [] [] [] [] [] [] []]; simpl; now rewrite IH.
Qed.

Lemma quote_compact (field rest : string) :
  compact (Sym.quote field rest) = compact rest.
Proof.
  induction field as [|c field IH]; [reflexivity |].
  destruct c as [[] [] [] [] [] [] [] []]; simpl; exact IH.
Qed.

Lemma Sym_contract : CryptoContract Sym.lib.
Proof.
  constructor; simpl.
  - intros password candidate rounds salt Hkey. unfold Sym.compare, Sym.hash.
    rewrite !unquote_quote, Hkey. apply String.eqb_refl.
  - intros password rounds salt. discriminate.
  - intros payload secret lifetime t. unfold Sym.sign. split.
    + destruct secret; discriminate.
    + rewrite !quote_compact. cbn [compact].
      rewrite !quote_compact. now destruct (claim_isAdmin payload).
  - intros payload secret secret' lifetime t t'. unfold Sym.verify, Sym.sign.
    rewrite !unquote_quote. rewrite !HexString.to_Z_of_Z.
    destruct (String.eqb secret secret' && (t' <? t + lifetime)%Z);
      [| reflexivity].
    destruct payload as [id name []]; reflexivity.
Qed.

Lemma Sym_ideal : BcryptIdeal Sym.lib.
Proof.
  constructor; simpl.
  - intros password candidate rounds salt. unfold Sym.compare, Sym.hash.
    rewrite !unquote_quote. apply String.eqb_eq.
  - intros password rounds salt. unfold Sym.hash, Sym.mark.
    destruct password as [|c password]; [discriminate |].
    intros H. injection H as Hc _.
    destruct (Ascii.eqb_spec c "$") as [-> | Hne]; [discriminate | congruence].
Qed.

Lemma Plain_contract : JsContract Plain.js.
Proof.
  constructor; simpl.
  intros s Hs. destruct s as [|c [|d rest]]; [congruence | discriminate |].
  simpl. destruct ((nat_of_ascii c =? 195)%nat && Plain.capital d)%bool;
    discriminate.
Qed.

(** ** Registration *)

Lemma User_findOne_ok (filter : User.doc -> bool) (db : Db) :
  failures db = [] ->
  User_findOne filter db = (inr (find filter (users db)), db).
Proof.
  intros Hf. unfold User_findOne, bind, gets. now rewrite (roundtrip_ok _ Hf).
Qed.

Lemma truthy_present (s : string) : s <> "" -> truthy (Some s) = Some s.
Proof. intros H. apply truthy_Some. now split. Qed.

Lemma clashes_false (u : User.doc) (us : list User.doc) :
  (forall v, In v us ->
     User.username v <> User.username u /\ User.email v <> User.email u) ->
  clashes u us = false.
Proof.
  intros H. unfold clashes.
  destruct (existsb _ us) eqn:E; [| reflexivity].
  apply existsb_exists in E. destruct E as [v [Hin Hv]].
  destruct (H v Hin) as [Hn He].
  apply orb_true_iff in Hv.
  destruct Hv as [Hv|Hv]; apply String.eqb_eq in Hv; contradiction.
Qed.

Lemma clashes_false_fresh (u : User.doc) (us : list User.doc) :
  clashes u us = false ->
  ~ In (User.username u) (map User.username us)
  /\ ~ In (User.email u) (map User.email us).
Proof.
  unfold clashes. intros H.
  split; intros Hin; apply in_map_iff in Hin; destruct Hin as [v [Heq Hin]].
  all: assert (Hex : existsb
         (fun v => String.eqb (User.username v) (User.username u)
                   || String.eqb (User.email v) (User.email u)) us = true)
    by (apply existsb_exists; exists v; split; [assumption |];
        rewrite Heq, String.eqb_refl; auto using orb_true_r).
  all: congruence.
Qed.

Lemma split_compact (s : string) : compact s = true -> split " " s = [s].
Proof.
  induction s as [|c s IH]; simpl; [reflexivity |].
  intros H. apply andb_true_iff in H. destruct H as [Hc Hs].
  apply negb_true_iff in Hc. rewrite Hc. now rewrite (IH Hs).
Qed.

Lemma split_scheme (scheme rest : string) :
  compact scheme = true ->
  split " " (scheme ++ String " " rest)%string = scheme :: split " " rest.
Proof.
  induction scheme as [|c s IH]; simpl; [reflexivity |].
  intros H. apply andb_true_iff in H. destruct H as [Hc Hs].
  apply negb_true_iff in Hc. rewrite Hc. now rewrite (IH Hs).
Qed.

(** What the middleware reads out of the header [Bearer <token>]. *)
Lemma bearer_credential (token : string) :
  token <> "" -> compact token = true ->
  truthy (Some ("Bearer " ++ token)%string) = Some ("Bearer " ++ token)%string
  /\ truthy (nth_error (split " " ("Bearer " ++ token)) 1) = Some token.
Proof.
  intros Hne Hc. split; [reflexivity |].
  simpl. rewrite (split_compact _ Hc). simpl. now apply truthy_present.
Qed.

Section ServerProperties.
Context {J : JsRuntime} {L : CryptoLib}.

(** A signed token sent as [Bearer <token>] is accepted when it was signed
    with the server's secret and has not expired, and is an 'Invalid token'
    otherwise. *)
Lemma authMiddleware_bearer {C : CryptoContract L}
      (env : Env) (payload : Claims) (secret : string) (issued : Z) :
  authMiddleware env
    (Some ("Bearer " ++ jwt_sign payload secret expiresIn issued)%string)
  = if String.eqb secret (JWT_SECRET env)
       && (now env <? issued + expiresIn)%Z
    then inr {| claims := payload; iat := issued;
                exp := (issued + expiresIn)%Z |}
    else inl (res_status 401 (Message "Invalid token")).
Proof.
  destruct (jwt_sign_compact payload secret expiresIn issued) as [Hne Hc].
  destruct (bearer_credential _ Hne Hc) as [Hh Ht].
  unfold authMiddleware. rewrite Hh, Ht, jwt_verify_sign.
  now destruct (String.eqb secret (JWT_SECRET env)
                && (now env <? issued + expiresIn)%Z).
Qed.

(** A header without a space has no second field. *)
Lemma authMiddleware_one_word (env : Env) (header : string) :
  header <> "" -> compact header = true ->
  authMiddleware env (Some header)
  = inl (res_status 401 (Message "Malformed token")).
Proof.
  intros Hne Hc. unfold authMiddleware.
  rewrite (truthy_present _ Hne), (split_compact _ Hc). reflexivity.
Qed.

(** In a header with a space the credential is the text between the first
    space and the next, or the end. *)
Lemma authMiddleware_second_word (env : Env) (scheme token tail : string) :
  compact scheme = true -> compact token = true ->
  tail = "" \/ (exists rest, tail = String " " rest) ->
  authMiddleware env (Some (scheme ++ String " " (token ++ tail))%string)
  = if String.eqb token ""
    then inl (res_status 401 (Message "Malformed token"))
    else match jwt_verify token (JWT_SECRET env) (now env) with
         | Some payload => inr payload
         | None => inl (res_status 401 (Message "Invalid token"))
         end.
Proof.
  intros Hs Ht Htail. unfold authMiddleware.
  replace (truthy (Some (scheme ++ String " " (token ++ tail))%string))
    with (Some (scheme ++ String " " (token ++ tail))%string)
    by (destruct scheme; reflexivity).
  rewrite (split_scheme scheme _ Hs).
  assert (Hfield : nth_error (scheme :: split " " (token ++ tail)%string) 1
                   = Some token).
  { destruct Htail as [-> | [rest ->]].
    - replace (token ++ "")%string with token
        by (clear; induction token; simpl; congruence).
      now rewrite (split_compact _ Ht).
    - now rewrite (split_scheme token rest Ht). }
  rewrite Hfield. destruct token; reflexivity.
Qed.

(** The users collection after any registration request: as before, or
    with one document more that passed the unique indexes. *)
Lemma register_users (env : Env) (username email password : option string)
      (db : Db) :
  users (snd (register env username email password db)) = users db
  \/ exists user,
       users (snd (register env username email password db))
       = users db ++ [user]
       /\ clashes user (users db) = false.
Proof.
  unfold register, User_findOne, User_save_new. run.
  repeat (branch; run; try (left; reflexivity));
    repeat match goal with
      | E : (_, _) = (_, _) |- _ => inversion E; subst; clear E
      end; simpl in *; try (left; reflexivity).
  all: right; eexists; split; [reflexivity | assumption].
Qed.

Lemma register_duplicate (env : Env) (db : Db)
      (username email password : string) (existing : User.doc) :
  failures db = [] ->
  username <> "" -> email <> "" -> password <> "" ->
  In existing (users db) ->
  User.username existing = username
  \/ User.email existing = toLowerCase email ->
  register env (Some username) (Some email) (Some password) db
  = (res_status 400 (Message "Email or username already in use"), db).
Proof.
  intros Hf Hu He Hp Hin Hdup.
  unfold register, handler, bind.
  rewrite (truthy_present _ Hu), (truthy_present _ He), (truthy_present _ Hp).
  rewrite (User_findOne_ok _ _ Hf).
  destruct (find_Some_In (emailOrUsername_is email username) (users db)
              existing Hin) as [found Hfound].
  { unfold emailOrUsername_is. apply orb_true_iff.
    destruct Hdup as [<- | ->]; [right | left]; apply String.eqb_refl. }
  now rewrite Hfound.
Qed.

(** C5. On a store that answers, a registration with its three fields
    whose username equals that of a stored user, or whose e-mail address in
    lower case equals that of a stored user, is answered
    400 'Email or username already in use' and the store is as it was.
    Whatever fields it carries, a request that names a stored username or
    e-mail address is answered 400 and stores nothing.  And no registration
    request whatever breaks the uniqueness of the usernames or of the
    e-mail addresses in the store. *)
Theorem register_duplicate_identity (env : Env) (db : Db) :
  (forall username email password existing,
      failures db = [] ->
      username <> "" -> email <> "" -> password <> "" ->
      In existing (users db) ->
      User.username existing = username
      \/ User.email existing = toLowerCase email ->
      register env (Some username) (Some email) (Some password) db
      = (res_status 400 (Message "Email or username already in use"), db))
  /\
  (forall username email password existing,
      failures db = [] ->
      In existing (users db) ->
      username = Some (User.username existing)
      \/ (exists address, email = Some address
                          /\ User.email existing = toLowerCase address) ->
      status (fst (register env username email password db)) = 400
      /\ snd (register env username email password db) = db)
  /\
  (forall username email password,
      NoDup (map User.username (users db)) ->
      NoDup (map User.email (users db)) ->
      let db' := snd (register env username email password db) in
      NoDup (map User.username (users db'))
      /\ NoDup (map User.email (users db'))).
Proof.
  split; [| split].
  - intros username email password existing. apply register_duplicate.
  - intros username email password existing Hf Hin Hdup.
    destruct (truthy username) as [u|] eqn:Eu;
      [destruct (truthy email) as [e|] eqn:Ee;
       [destruct (truthy password) as [p|] eqn:Ep |] |].
    + apply truthy_Some in Eu, Ee, Ep.
      destruct Eu as [-> Hu], Ee as [-> He], Ep as [-> Hp].
      rewrite (register_duplicate env db u e p existing); auto.
      destruct Hdup as [Hdup | [address [Ha Hdup]]].
      * left. congruence.
      * right. congruence.
    + unfold register, handler. rewrite Eu, Ee, Ep. now split.
    + unfold register, handler. rewrite Eu, Ee. now split.
    + unfold register, handler. rewrite Eu. now split.
  - intros username email password Hnu Hne db'. subst db'.
    destruct (register_users env username email password db)
      as [-> | [user [-> Hfresh]]]; [now split |].
    apply clashes_false_fresh in Hfresh. destruct Hfresh as [Hu He].
    rewrite !map_app. simpl.
    split; apply NoDup_app; try assumption.
    all: try (constructor; [intros [] | constructor]).
    all: intros x Hx [<-|[]]; contradiction.
Qed.

(** C6, as the code has it.  On a store that answers, a registration with
    its three fields, a username of at least 3 characters by its [length],
    and a username and normalized e-mail address that no stored user has,
    is answered 200 with a token and adds one user: not an admin, with an
    empty library and with the bcrypt digest of the password at 10 rounds
    as [passwordHash], which, bcrypt taken as one-way, is not the password.
    Until it expires 7 days later the token verifies under the server's
    secret and decodes to the id, username and isAdmin of the stored user,
    and [authMiddleware] accepts it as [Bearer <token>] with these
    claims. *)
Theorem register_valid {K : JsContract J} {C : CryptoContract L}
        (env : Env) (username email password : string) (db : Db) :
  failures db = [] ->
  email <> "" -> password <> "" ->
  (3 <= js_length username)%nat ->
  (forall v, In v (users db) ->
     User.username v <> username /\ User.email v <> toLowerCase email) ->
  let user :=
    {| User._id := fresh_id env;
       User.username := username;
       User.email := toLowerCase email;
       User.passwordHash := bcrypt_hash password 10 (salt env);
       User.isAdmin := false;
       User.library := [] |} in
  exists token,
    register env (Some username) (Some email) (Some password) db
    = (res_json (Session token (view user)),
       set_users (users db ++ [user]) db)
    /\ (BcryptIdeal L -> User.passwordHash user <> password)
    /\ (forall t', (t' < now env + 604800)%Z ->
         exists payload,
           jwt_verify token (JWT_SECRET env) t' = Some payload
           /\ claim_id (claims payload) = toString (User._id user)
           /\ claim_username (claims payload) = User.username user
           /\ claim_isAdmin (claims payload) = User.isAdmin user)
    /\ (forall env',
         JWT_SECRET env' = JWT_SECRET env ->
         (now env' < now env + 604800)%Z ->
         exists payload,
           authMiddleware env' (Some ("Bearer " ++ token)%string) = inr payload
           /\ claims payload = claims_of user).
Proof.
  intros Hf He Hp Hlen Hfresh user.
  assert (Hu : username <> "").
  { intros ->. simpl in Hlen. lia. }
  exists (jwt_sign (claims_of user) (JWT_SECRET env) expiresIn (now env)).
  split; [| split; [| split]].
  - unfold register, handler, bind.
    rewrite (truthy_present _ Hu), (truthy_present _ He), (truthy_present _ Hp).
    rewrite (User_findOne_ok _ _ Hf).
    destruct (find (emailOrUsername_is email username) (users db))
      as [v|] eqn:Efind.
    { apply find_some in Efind. destruct Efind as [Hin Hv].
      destruct (Hfresh v Hin) as [Hn Hm].
      unfold emailOrUsername_is in Hv. apply orb_true_iff in Hv.
      destruct Hv as [Hv|Hv]; apply String.eqb_eq in Hv; contradiction. }
    fold user. change (new_User (fresh_id env) username email
                         (bcrypt_hash password saltRounds (salt env))) with user.
    unfold User_save_new.
    assert (Hvalid : validUser user = true).
    { unfold validUser, user.
      cbn [User.username User.email User.passwordHash].
      apply String.eqb_neq in Hu. rewrite Hu.
      apply Nat.leb_le in Hlen. rewrite Hlen.
      pose proof (toLowerCase_nonempty _ He) as Hle.
      apply String.eqb_neq in Hle. rewrite Hle.
      pose proof (bcrypt_hash_nonempty password 10 (salt env)) as Hh.
      apply String.eqb_neq in Hh. now rewrite Hh. }
    rewrite Hvalid. simpl. unfold bind.
    rewrite (roundtrip_ok _ Hf). unfold gets.
    rewrite (clashes_false user (users db) Hfresh). reflexivity.
  - intros I. simpl. apply bcrypt_hash_digest.
  - intros t' Ht. eexists. split.
    + rewrite jwt_verify_sign, String.eqb_refl.
      apply Z.ltb_lt in Ht. unfold expiresIn. now rewrite Ht.
    + simpl. repeat split.
  - intros env' Hsecret Ht. eexists. split.
    + rewrite authMiddleware_bearer, Hsecret, String.eqb_refl.
      apply Z.ltb_lt in Ht. unfold expiresIn. now rewrite Ht.
    + reflexivity.
Qed.

(** What [login] does with the user the lookup returns. *)
Lemma login_found (env : Env) (identity candidate : string) (db : Db)
      (v : User.doc) :
  failures db = [] ->
  identity <> "" -> candidate <> "" ->
  find (emailOrUsername_is identity identity) (users db) = Some v ->
  login env (Some identity) (Some candidate) db
  = (if bcrypt_compare candidate (User.passwordHash v)
     then session env v
     else res_status 400 (Message "Invalid credentials"), db).
Proof.
  intros Hf Hi Hc Hfind. unfold login, handler, bind.
  rewrite (truthy_present _ Hi), (truthy_present _ Hc).
  rewrite (User_findOne_ok _ _ Hf), Hfind.
  now destruct (bcrypt_compare candidate (User.passwordHash v)).
Qed.

(** C7, as the code has it.  On a store that answers, [login] checks the
    password against the first stored user whose e-mail address is the
    identity in lower case or whose username is the identity, and is
    answered 200 exactly when [bcrypt.compare] accepts it.  So let [u] be a
    stored user whose [passwordHash] is the digest of [password], and the
    identity a string equal to [u]'s username, or equal to [u]'s e-mail
    address once put in lower case, that matches no other stored user in
    either way: [login] with [password], and with any text of which bcrypt
    reads the same, is answered 200 with a token for [u]; and, bcrypt taken
    as one-way, [login] with a non-empty password of which bcrypt reads
    something else is answered 400 'Invalid credentials'.  The store is as
    it was. *)
Theorem login_unambiguous {C : CryptoContract L}
        (env : Env) (identity : string) (db : Db) :
  failures db = [] ->
  identity <> "" ->
  (forall candidate v,
      candidate <> "" ->
      find (emailOrUsername_is identity identity) (users db) = Some v ->
      login env (Some identity) (Some candidate) db
      = (if bcrypt_compare candidate (User.passwordHash v)
         then session env v
         else res_status 400 (Message "Invalid credentials"), db))
  /\
  (forall u password rounds salt0,
      In u (users db) ->
      User.email u = toLowerCase identity \/ User.username u = identity ->
      (forall v, In v (users db) ->
         User.email v = toLowerCase identity \/ User.username v = identity ->
         v = u) ->
      User.passwordHash u = bcrypt_hash password rounds salt0 ->
      (password <> "" ->
       login env (Some identity) (Some password) db = (session env u, db))
      /\ (forall candidate,
            candidate <> "" -> bcrypt_key candidate = bcrypt_key password ->
            login env (Some identity) (Some candidate) db = (session env u, db))
      /\ (BcryptIdeal L ->
          forall candidate,
            candidate <> "" -> bcrypt_key candidate <> bcrypt_key password ->
            login env (Some identity) (Some candidate) db
            = (res_status 400 (Message "Invalid credentials"), db))).
Proof.
  intros Hf Hi. split.
  - intros candidate v Hc Hfind. now apply login_found.
  - intros u password rounds salt0 Hin Hmatch Honly Hhash.
    assert (Hfind : find (emailOrUsername_is identity identity) (users db)
                    = Some u).
    { destruct (find_Some_In (emailOrUsername_is identity identity) (users db)
                  u Hin) as [v Hv].
      - unfold emailOrUsername_is. apply orb_true_iff.
        destruct Hmatch as [-> | ->]; [left | right]; apply String.eqb_refl.
      - rewrite Hv. f_equal. apply find_some in Hv. destruct Hv as [Hvin Hv].
        apply Honly; [assumption |].
        unfold emailOrUsername_is in Hv. apply orb_true_iff in Hv.
        destruct Hv as [Hv|Hv]; apply String.eqb_eq in Hv; auto. }
    assert (Hsame : forall candidate,
              candidate <> "" -> bcrypt_key candidate = bcrypt_key password ->
              login env (Some identity) (Some candidate) db
              = (session env u, db)).
    { intros candidate Hc Hkey.
      rewrite (login_found env identity candidate db u Hf Hi Hc Hfind).
      now rewrite Hhash, (bcrypt_compare_hash _ _ _ _ Hkey). }
    split; [| split].
    + intros Hp. now apply Hsame.
    + exact Hsame.
    + intros I candidate Hc Hkey.
      rewrite (login_found env identity candidate db u Hf Hi Hc Hfind).
      rewrite Hhash.
      destruct (bcrypt_compare candidate (bcrypt_hash password rounds salt0))
        eqn:E; [| reflexivity].
      apply bcrypt_compare_key in E. contradiction.
Qed.

(** C8, as the code has it.  [authMiddleware] sends 'No token provided'
    exactly when there is no Authorization header or an empty one,
    'Malformed token' exactly when the header has no text after its first
    space, 'Invalid token' exactly when [jwt.verify] rejects the text
    between the first and the second space under the server's secret, and
    in no other case sends a reply; every reply it sends has status 401.
    Otherwise it hands the verified payload on: the protected route runs
    with it, and does not run at all when a reply was sent.  Under the
    libraries' contract, a signed token sent as [Bearer <token>] gets
    'Invalid token' when it was signed with another secret or has expired,
    and is accepted with the payload that was signed otherwise.  In terms
    of the header's text: a header without a space is malformed; in a
    header with a space the credential is the text between the first space
    and the next or the end, whatever word stands before it; an empty
    credential is malformed, and any other is what [jwt.verify] is asked
    about. *)
Theorem authMiddleware_cases (env : Env) (authorization : option string) :
  (authMiddleware env authorization
   = inl (res_status 401 (Message "No token provided"))
   <-> truthy authorization = None)
  /\ (authMiddleware env authorization
      = inl (res_status 401 (Message "Malformed token"))
      <-> exists authHeader,
            truthy authorization = Some authHeader
            /\ truthy (nth_error (split " " authHeader) 1) = None)
  /\ (authMiddleware env authorization
      = inl (res_status 401 (Message "Invalid token"))
      <-> exists authHeader token,
            truthy authorization = Some authHeader
            /\ truthy (nth_error (split " " authHeader) 1) = Some token
            /\ jwt_verify token (JWT_SECRET env) (now env) = None)
  /\ (forall payload,
        authMiddleware env authorization = inr payload
        <-> exists authHeader token,
              truthy authorization = Some authHeader
              /\ truthy (nth_error (split " " authHeader) 1) = Some token
              /\ jwt_verify token (JWT_SECRET env) (now env) = Some payload)
  /\ (forall reply,
        authMiddleware env authorization = inl reply ->
        status reply = 401
        /\ forall route db, protected env authorization route db = (reply, db))
  /\ (forall payload,
        authMiddleware env authorization = inr payload ->
        forall route db,
          protected env authorization route db = route payload db)
  /\ (forall (C : CryptoContract L) payload secret issued,
        authMiddleware env
          (Some ("Bearer " ++ jwt_sign payload secret expiresIn issued)%string)
        = if String.eqb secret (JWT_SECRET env)
             && (now env <? issued + expiresIn)%Z
          then inr {| claims := payload; iat := issued;
                      exp := (issued + expiresIn)%Z |}
          else inl (res_status 401 (Message "Invalid token")))
  /\ (forall header,
        header <> "" -> compact header = true ->
        authMiddleware env (Some header)
        = inl (res_status 401 (Message "Malformed token")))
  /\ (forall scheme token tail,
        compact scheme = true -> compact token = true ->
        tail = "" \/ (exists rest, tail = String " " rest) ->
        authMiddleware env (Some (scheme ++ String " " (token ++ tail))%string)
        = if String.eqb token ""
          then inl (res_status 401 (Message "Malformed token"))
          else match jwt_verify token (JWT_SECRET env) (now env) with
               | Some payload => inr payload
               | None => inl (res_status 401 (Message "Invalid token"))
               end).
Proof.
  split; [| split; [| split; [| split; [| split; [| split; [| split;
    [| split]]]]]]].
  7: intros C payload secret issued; apply authMiddleware_bearer.
  7: apply authMiddleware_one_word.
  7: apply authMiddleware_second_word.
  all: unfold protected, authMiddleware.
  all: destruct (truthy authorization) as [authHeader|];
    [destruct (truthy (nth_error (split " " authHeader) 1))
       as [token|] eqn:Etok;
     [destruct (jwt_verify token (JWT_SECRET env) (now env))
        as [verified|] eqn:Ever |] |].
  all: repeat split; intros.
  all: repeat match goal with
         | H : exists _, _ |- _ => destruct H
         | H : _ /\ _ |- _ => destruct H
         | H : Some _ = Some _ |- _ => inversion H; subst; clear H
         | H : inl _ = inl _ |- _ => inversion H; subst; clear H
         | H : inr _ = inr _ |- _ => inversion H; subst; clear H
         end.
  all: try discriminate; try congruence; try reflexivity.
  all: try (eexists; split; [reflexivity | assumption]).
  all: try (do 2 eexists; split; [reflexivity | split; eassumption]).
Qed.

End ServerProperties.

(** ** The statements on the run of [Run] *)

Lemma register_duplicate_identity_witness :
  register (J := Plain.js) (L := Sym.lib) (Run.clock 5000 Run.go_id)
    (Some "zed") (Some "ANN@X.COM") (Some "qwerty") (snd Run.register_bob)
  = (res_status 400 (Message "Email or username already in use"),
     snd Run.register_bob).
Proof.
  apply (proj1 (register_duplicate_identity (J := Plain.js) (L := Sym.lib)
                  (Run.clock 5000 Run.go_id) (snd Run.register_bob))
               "zed" "ANN@X.COM" "qwerty"
               (new_User (J := Plain.js) Run.ann_id "ann" "ann@x.com"
                         (Sym.hash "p12345" saltRounds "c2FsdA"))).
  - reflexivity.
  - discriminate.
  - discriminate.
  - discriminate.
  - left. reflexivity.
  - right. reflexivity.
Defined.

Lemma register_valid_witness :
  let env := Run.clock 1000 Run.ann_id in
  let user :=
    {| User._id := Run.ann_id;
       User.username := "ann";
       User.email := "ann@x.com";
       User.passwordHash := Sym.hash "p12345" 10 "c2FsdA";
       User.isAdmin := false;
       User.library := [] |} in
  exists token,
    register (J := Plain.js) (L := Sym.lib) env
             (Some "ann") (Some "Ann@X.com") (Some "p12345") Run.empty
    = (res_json (Session token (view user)), set_users [user] Run.empty)
    /\ User.passwordHash user <> "p12345"
    /\ (forall t', (t' < 1000 + 604800)%Z ->
         exists payload,
           Sym.verify token (JWT_SECRET env) t' = Some payload
           /\ claim_id (claims payload) = Run.ann_id
           /\ claim_username (claims payload) = "ann"
           /\ claim_isAdmin (claims payload) = false)
    /\ (forall env',
         JWT_SECRET env' = JWT_SECRET env ->
         (now env' < 1000 + 604800)%Z ->
         exists payload,
           authMiddleware (L := Sym.lib) env'
             (Some ("Bearer " ++ token)%string) = inr payload
           /\ claims payload = claims_of user).
Proof.
  intros env user.
  destruct (register_valid (J := Plain.js) (L := Sym.lib)
              (K := Plain_contract) (C := Sym_contract)
              (Run.clock 1000 Run.ann_id) "ann" "Ann@X.com" "p12345" Run.empty)
    as (token & Hreply & Hdigest & Hverify & Haccepted).
  - reflexivity.
  - discriminate.
  - discriminate.
  - simpl. lia.
  - intros v [].
  - exists token. split; [exact Hreply |].
    split; [exact (Hdigest Sym_ideal) |].
    split; [exact Hverify | exact Haccepted].
Defined.

Lemma authMiddleware_cases_witness :
  let token := Sym.sign (claims Run.ann) "secretllavesecreta" expiresIn 1000 in
  authMiddleware (L := Sym.lib) (Run.clock 2000 Run.bob_id)
    (Some ("Bearer " ++ token)%string) = inr Run.ann
  /\ authMiddleware (L := Sym.lib) (Run.clock 700000 Run.bob_id)
       (Some ("Bearer " ++ token)%string)
     = inl (res_status 401 (Message "Invalid token")).
Proof.
  split.
  - exact (proj1 (proj2 (proj2 (proj2 (proj2 (proj2 (proj2
             (authMiddleware_cases (L := Sym.lib)
                (Run.clock 2000 Run.bob_id) None)))))))
           Sym_contract (claims Run.ann) "secretllavesecreta" 1000%Z).
  - exact (proj1 (proj2 (proj2 (proj2 (proj2 (proj2 (proj2
             (authMiddleware_cases (L := Sym.lib)
                (Run.clock 700000 Run.bob_id) None)))))))
           Sym_contract (claims Run.ann) "secretllavesecreta" 1000%Z).
Defined.

(** C8 as stated fails.  The header 'Basic <token>' supplies no bearer
    credential, and with Ann's token it is not answered 'No token provided':
    it is accepted, and the route runs with her claims.  The header
    'Bearer garbage' carries a credential that cannot be parsed into a
    token, and it is not answered 'Malformed token': [jwt.verify] throws on
    it and the reply is 'Invalid token'. *)
Lemma authMiddleware_other_headers :
  authMiddleware (L := Sym.lib) (Run.clock 2000 Run.bob_id)
    (Some ("Basic " ++ Tour.ann_token)%string) = inr Run.ann
  /\ authMiddleware (L := Sym.lib) (Run.clock 2000 Run.bob_id)
       (Some "Bearer garbage")
     = inl (res_status 401 (Message "Invalid token")).
Proof. vm_compute. split; reflexivity. Qed.

(** C6 as stated fails: a registration with a fresh two-character
    username, a fresh e-mail address and a password is refused by the
    schema's [minlength] when the user is saved; the reply is
    500 'Server error' and no user is stored. *)
Lemma register_short_username :
  register (J := Plain.js) (L := Sym.lib) (Run.clock 1000 Run.ann_id)
    (Some "al") (Some "al@x.com") (Some "p12345") Run.empty
  = (res_status 500 (Message "Server error"), Run.empty).
Proof. vm_compute. reflexivity. Qed.

(** Letters outside ASCII.  The name 'éé' has four bytes and the length
    2: the schema refuses it when the user is saved.  With Eve stored under
    the address 'éve@x.com', a registration with 'ÉVE@X.COM' is refused as
    a duplicate, and a login with 'ÉVE@X.COM' and her password finds her. *)
Example register_accented :
  let register := register (J := Plain.js) (L := Sym.lib) in
  let eve :=
    snd (register (Run.clock 1000 Run.ann_id)
           (Some "eve") (Some "éve@x.com") (Some "p12345") Run.empty) in
  js_length "éé" = 2%nat
  /\ register (Run.clock 1000 Run.ann_id)
       (Some "éé") (Some "al@x.com") (Some "p12345") Run.empty
     = (res_status 500 (Message "Server error"), Run.empty)
  /\ map User.email (users eve) = ["éve@x.com"]
  /\ register (Run.clock 2000 Run.bob_id)
       (Some "eva") (Some "ÉVE@X.COM") (Some "qwerty") eve
     = (res_status 400 (Message "Email or username already in use"), eve)
  /\ status (fst (login (J := Plain.js) (L := Sym.lib) (Run.clock 3000 Run.bob_id)
                    (Some "ÉVE@X.COM") (Some "p12345") eve)) = 200.
Proof. vm_compute. repeat split. Qed.

Lemma login_unambiguous_witness :
  let bob := new_User (J := Plain.js) Run.bob_id "ann@x.com" "bob@x.com"
                      (Sym.hash "hunter2" saltRounds "c2FsdA") in
  let env := Run.clock 6000 Run.go_id in
  let login := login (J := Plain.js) (L := Sym.lib) env (Some "Bob@X.COM") in
  ("hunter2" <> "" ->
   login (Some "hunter2") (snd Run.register_bob)
   = (session (L := Sym.lib) env bob, snd Run.register_bob))
  /\ (forall candidate,
        candidate <> "" -> Sym.key candidate = Sym.key "hunter2" ->
        login (Some candidate) (snd Run.register_bob)
        = (session (L := Sym.lib) env bob, snd Run.register_bob))
  /\ (forall candidate,
        candidate <> "" -> Sym.key candidate <> Sym.key "hunter2" ->
        login (Some candidate) (snd Run.register_bob)
        = (res_status 400 (Message "Invalid credentials"), snd Run.register_bob)).
Proof.
  assert (Hf : failures (snd Run.register_bob) = []) by reflexivity.
  assert (Hi : "Bob@X.COM" <> "") by discriminate.
  destruct (proj2 (login_unambiguous (J := Plain.js) (L := Sym.lib)
                     (C := Sym_contract)
                     (Run.clock 6000 Run.go_id) "Bob@X.COM"
                     (snd Run.register_bob) Hf Hi)
                  (new_User (J := Plain.js) Run.bob_id "ann@x.com" "bob@x.com"
                            (Sym.hash "hunter2" saltRounds "c2FsdA"))
                  "hunter2" saltRounds "c2FsdA")
    as (Hown & Hsame & Hother).
  - right. left. reflexivity.
  - left. reflexivity.
  - intros v Hin Hmatch. vm_compute in Hin.
    destruct Hin as [<- | [<- | []]]; [| reflexivity].
    vm_compute in Hmatch. destruct Hmatch; discriminate.
  - reflexivity.
  - split; [exact Hown |]. split; [exact Hsame | exact (Hother Sym_ideal)].
Defined.

(** C7 as stated fails: Ann and Bob are both registered, Bob under the
    username 'ann@x.com', which is Ann's e-mail address.  A login with
    Bob's username and Bob's password finds Ann first and is answered
    400 'Invalid credentials'. *)
Lemma login_shadowed_identity :
  status (fst Run.register_ann) = 200
  /\ status (fst Run.register_bob) = 200
  /\ (exists bob,
        In bob (users (snd Run.register_bob))
        /\ User.username bob = "ann@x.com"
        /\ User.passwordHash bob
           = bcrypt_hash (CryptoLib := Sym.lib) "hunter2" saltRounds "c2FsdA")
  /\ login (J := Plain.js) (L := Sym.lib) (Run.clock 6000 Run.go_id)
           (Some "ann@x.com") (Some "hunter2") (snd Run.register_bob)
     = (res_status 400 (Message "Invalid credentials"), snd Run.register_bob).
Proof.
  split; [reflexivity |]. split; [reflexivity |]. split.
  - eexists. split; [right; left; reflexivity |]. split; reflexivity.
  - vm_compute. reflexivity.
Qed.

(** * More of the server *)

(** ** Lists with one element replaced or removed *)

Lemma replace_first_same {A} (p : A -> bool) (x : A) (l : list A) :
  find p l = Some x -> replace_first p x l = l.
Proof.
  induction l as [|a l IH]; simpl; [reflexivity |].
  destruct (p a); intros H; [now inversion H | now rewrite IH].
Qed.

Lemma replace_first_again {A} (p : A -> bool) (x y : A) (l : list A) :
  p x = true -> replace_first p y (replace_first p x l) = replace_first p y l.
Proof.
  intros Hx. induction l as [|a l IH]; simpl; [reflexivity |].
  destruct (p a) eqn:E; simpl; [now rewrite Hx | now rewrite E, IH].
Qed.

Lemma find_replace_first {A} (p : A -> bool) (old new : A) (l : list A) :
  find p l = Some old -> p new = true ->
  find p (replace_first p new l) = Some new.
Proof.
  intros Hfind Hnew. induction l as [|a l IH]; simpl in *; [discriminate |].
  destruct (p a) eqn:E; simpl; [now rewrite Hnew | rewrite E; now apply IH].
Qed.

Lemma replace_first_map {A B} (f : A -> B) (p : A -> bool) (old new : A)
      (l : list A) :
  find p l = Some old -> f new = f old ->
  map f (replace_first p new l) = map f l.
Proof.
  intros Hfind Hf. induction l as [|a l IH]; simpl in *; [reflexivity |].
  destruct (p a); simpl.
  - inversion Hfind; subst. now rewrite Hf.
  - now rewrite IH.
Qed.

Lemma replace_first_elem {A} (p : A -> bool) (new x : A) (l : list A) :
  In x (replace_first p new l) -> x = new \/ In x l.
Proof.
  induction l as [|a l IH]; simpl; [tauto |].
  destruct (p a); simpl; intros [H | H]; auto.
  destruct (IH H); auto.
Qed.

Lemma remove_first_keeps {A} (p : A -> bool) (x : A) (l : list A) :
  In x l -> p x = false -> In x (remove_first p l).
Proof.
  induction l as [|a l IH]; simpl; [tauto |].
  intros [-> | Hin] Hp.
  - rewrite Hp. now left.
  - destruct (p a); [assumption | right; now apply IH].
Qed.

Lemma remove_first_elem {A} (p : A -> bool) (x : A) (l : list A) :
  In x (remove_first p l) -> In x l.
Proof.
  induction l as [|a l IH]; simpl; [tauto |].
  destruct (p a); simpl; [now right | intros [H | H]; auto].
Qed.

Lemma remove_first_none {A} (p : A -> bool) (l : list A) :
  find p l = None -> remove_first p l = l.
Proof.
  induction l as [|a l IH]; simpl; [reflexivity |].
  destruct (p a); [discriminate | intros H; now rewrite IH].
Qed.

Lemma find_app_fresh {A} (p : A -> bool) (l : list A) (x : A) :
  (forall y, In y l -> p y = false) -> p x = true ->
  find p (l ++ [x]) = Some x.
Proof.
  intros Hl Hx. induction l as [|a l IH]; simpl; [now rewrite Hx |].
  rewrite (Hl a (or_introl eq_refl)). apply IH.
  intros y Hy. apply Hl. now right.
Qed.

Lemma find_remove_first (oid : ObjectId) (gs : list Game.doc) :
  NoDup (map Game._id gs) ->
  find (gameById oid) (remove_first (gameById oid) gs) = None.
Proof.
  induction gs as [|g gs IH]; simpl; [reflexivity |].
  intros Hnd. inversion Hnd as [|? ? Hnot Hrest]; subst.
  destruct (gameById oid g) eqn:E; simpl.
  - apply gameById_true in E. subst oid.
    destruct (find (gameById (Game._id g)) gs) as [h|] eqn:F; [| reflexivity].
    apply find_some in F. destruct F as [Hin Hh]. apply gameById_true in Hh.
    exfalso. apply Hnot. rewrite <- Hh. now apply in_map.
  - rewrite E. now apply IH.
Qed.

Lemma set_library_same (u : User.doc) : User.set_library u (User.library u) = u.
Proof. now destruct u. Qed.

Lemma set_library_back (u : User.doc) (l : list ObjectId) :
  User.set_library (User.set_library u l) (User.library u) = u.
Proof. now destruct u. Qed.

Lemma pull_last (g : ObjectId) (l : list ObjectId) :
  ~ In g l -> pull g (l ++ [g]) = l.
Proof.
  intros Hnot. unfold pull. rewrite filter_app. simpl.
  rewrite String.eqb_refl. simpl. rewrite app_nil_r. now apply pull_absent.
Qed.

Lemma pull_pull (g : ObjectId) (l : list ObjectId) :
  pull g (pull g l) = pull g l.
Proof.
  apply pull_absent. intros Hin. apply pull_In in Hin. now destruct Hin.
Qed.

Lemma pull_NoDup (g : ObjectId) (l : list ObjectId) :
  NoDup l -> NoDup (pull g l).
Proof. apply NoDup_filter. Qed.

(** ** What the handlers did when they reply 200 *)

Lemma gameCreate_created {J : JsRuntime} (env : Env) (req_user : Payload)
      (body : Req.game) (db db' : Db) (r : Response) :
  gameCreate env req_user body db = (r, db') ->
  status r = 200 ->
  exists game uid,
    castObjectId (claim_id (claims req_user)) = Some uid
    /\ Game._id game = fresh_id env
    /\ Game.createdBy game = Some uid
    /\ truthy (Req.title body) = Some (Game.title game)
    /\ Game.price game = or_zero (Req.price body)
    /\ releaseDate_of (Req.releaseDate body) = Some (Game.releaseDate game)
    /\ r = res_json (GameJson game)
    /\ users db' = users db
    /\ games db' = games db ++ [game]
    /\ (failures db = [] -> failures db' = []).
Proof.
  unfold gameCreate, Game_save_new. run. intros Hrun Hst.
  repeat (branch; run);
    repeat match goal with
      | E : (_, _) = (_, _) |- _ => inversion E; subst; clear E
      end; simpl in *; try discriminate.
  all: eexists; eexists; repeat split; try reflexivity; try eassumption.
  all: intros Hanswers; simpl in *; congruence.
Qed.

Lemma gameUpdate_updated {J : JsRuntime} (id : string) (update : Req.game)
      (db db' : Db) (r : Response) :
  gameUpdate id update db = (r, db') ->
  status r = 200 ->
  exists oid old cast,
    castObjectId id = Some oid
    /\ castUpdate update = Some cast
    /\ find (gameById oid) (games db) = Some old
    /\ r = res_json (GameJson (applyUpdate cast old))
    /\ users db' = users db
    /\ games db'
       = replace_first (gameById oid) (applyUpdate cast old) (games db)
    /\ (failures db = [] -> failures db' = []).
Proof.
  unfold gameUpdate, Game_findByIdAndUpdate. run. intros Hrun Hst.
  destruct (castObjectId id) as [oid|]; run;
    [| inversion Hrun; subst; discriminate].
  destruct (castUpdate update) as [cast|]; run;
    [| inversion Hrun; subst; discriminate].
  repeat (branch; run);
    repeat match goal with
      | E : (_, _) = (_, _) |- _ => inversion E; subst; clear E
      end; simpl in *; try discriminate.
  all: exists oid; eexists; exists cast.
  all: repeat split; try reflexivity; try eassumption.
  all: intros Hanswers; simpl in *; congruence.
Qed.

Lemma gameDelete_deleted (id : string) (db db' : Db) (r : Response) :
  gameDelete id db = (r, db') ->
  status r = 200 ->
  exists oid game,
    castObjectId id = Some oid
    /\ find (gameById oid) (games db) = Some game
    /\ games db' = remove_first (gameById oid) (games db)
    /\ users db'
       = map (fun u => User.set_library u (pull oid (User.library u)))
             (users db)
    /\ (failures db = [] -> failures db' = []).
Proof.
  unfold gameDelete, Game_findByIdAndDelete, User_updateMany_pull. run.
  intros Hrun Hst.
  repeat (branch; run);
    repeat match goal with
      | E : (_, _) = (_, _) |- _ => inversion E; subst; clear E
      end; simpl in *; try discriminate.
  all: match goal with
       | E : find (gameById ?o) _ = Some ?g |- _ =>
           exists o, g; pose proof (find_some _ _ E) as [_ Hid];
           apply gameById_true in Hid; rewrite Hid
       end.
  all: repeat split; try reflexivity; try assumption; try discriminate.
  all: try (intros Hanswers; simpl in *; congruence).
  all: apply map_ext; intros u;
    destruct (includes _ (User.library u)) eqn:Einc; [reflexivity |];
    apply includes_not_In in Einc;
    now rewrite (pull_absent _ _ Einc), set_library_same.
Qed.

(** ** Facts shared by the statements below *)

Lemma gameGet_answer (id : string) (oid : ObjectId) (db : Db) :
  failures db = [] ->
  castObjectId id = Some oid ->
  gameGet id db
  = (match find (gameById oid) (games db) with
     | Some game => res_json (GameJson game)
     | None => res_status 404 (Message "Not found")
     end, db).
Proof.
  intros Hf Hc. unfold gameGet, handler, bind.
  rewrite (Game_findById_ok _ _ _ Hf Hc).
  now destruct (find (gameById oid) (games db)).
Qed.

Lemma gameCreate_grows {J : JsRuntime} (env : Env) (req_user : Payload)
      (body : Req.game) (db : Db) :
  users (snd (gameCreate env req_user body db)) = users db
  /\ forall g, In g (games db) ->
               In g (games (snd (gameCreate env req_user body db))).
Proof.
  unfold gameCreate, Game_save_new. run.
  repeat (branch; run); split; try reflexivity; try (intros g Hg; exact Hg).
  all: intros g Hg; apply in_or_app; now left.
Qed.

(** What an update leaves behind: the store as it was and a reply other
    than 200, or one game replaced by its update. *)
Lemma gameUpdate_effect {J : JsRuntime} (id : string) (update : Req.game)
      (db : Db) :
  users (snd (gameUpdate id update db)) = users db
  /\ ((games (snd (gameUpdate id update db)) = games db
       /\ (status (fst (gameUpdate id update db)) = 200 ->
           exists cast, castUpdate update = Some cast))
      \/ exists oid old cast,
           castUpdate update = Some cast
           /\ find (gameById oid) (games db) = Some old
           /\ status (fst (gameUpdate id update db)) = 200
           /\ games (snd (gameUpdate id update db))
              = replace_first (gameById oid) (applyUpdate cast old) (games db)).
Proof.
  unfold gameUpdate, Game_findByIdAndUpdate. run.
  destruct (castObjectId id) as [oid|]; run;
    [| split; [reflexivity | left; split; [reflexivity | discriminate]]].
  destruct (castUpdate update) as [cast|]; run;
    [| split; [reflexivity | left; split; [reflexivity | discriminate]]].
  repeat (branch; run); split; try reflexivity.
  all: try (left; split; [reflexivity | discriminate]).
  all: right; exists oid; eexists; exists cast;
    repeat split; try reflexivity; eassumption.
Qed.

Lemma applyUpdate_id (cast : Update.doc) (g : Game.doc) :
  Game._id (applyUpdate cast g) = Game._id g.
Proof. reflexivity. Qed.

Lemma gameUpdate_ids {J : JsRuntime} (id : string) (update : Req.game)
      (db : Db) :
  users (snd (gameUpdate id update db)) = users db
  /\ map Game._id (games (snd (gameUpdate id update db)))
     = map Game._id (games db).
Proof.
  destruct (gameUpdate_effect id update db)
    as [Hus [[Hgs _] | (oid & old & cast & _ & Hold & _ & Hgs)]];
    split; try assumption; rewrite Hgs; [reflexivity |].
  eapply replace_first_map; [eassumption | reflexivity].
Qed.

(** ** The catalog: reading one game *)

(** X1. [GET /api/games/:id] never changes a collection.  An id that is
    not an ObjectId is answered 500 'Server error', not 404; on a store
    that answers, an ObjectId is answered 404 'Not found' when no game has
    it and 200 with the first game that has it otherwise. *)
Theorem gameGet_reply (id : string) (db : Db) :
  users (snd (gameGet id db)) = users db
  /\ games (snd (gameGet id db)) = games db
  /\ (castObjectId id = None ->
      gameGet id db = (res_status 500 (Message "Server error"), db))
  /\ (forall oid,
        failures db = [] ->
        castObjectId id = Some oid ->
        gameGet id db
        = (match find (gameById oid) (games db) with
           | Some game => res_json (GameJson game)
           | None => res_status 404 (Message "Not found")
           end, db)).
Proof.
  split; [| split; [| split]].
  - unfold gameGet, Game_findById. run.
    repeat (branch; run; try reflexivity).
  - unfold gameGet, Game_findById. run.
    repeat (branch; run; try reflexivity).
  - intros Hc. unfold gameGet, Game_findById. run. now rewrite Hc.
  - intros oid Hf Hc. now apply gameGet_answer.
Qed.

Lemma gameGet_reply_witness :
  gameGet "chess" Run.populated
  = (res_status 500 (Message "Server error"), Run.populated)
  /\ fst (gameGet Run.go_id Run.populated)
     = res_status 404 (Message "Not found").
Proof.
  pose proof (gameGet_reply "chess" Run.populated) as (_ & _ & Hbad & _).
  pose proof (gameGet_reply Run.go_id Run.populated) as (_ & _ & _ & Hok).
  split.
  - exact (Hbad eq_refl).
  - exact (f_equal fst (Hok Run.go_id eq_refl eq_refl)).
Defined.

(** X2. On a store that answers, when a create is answered 200 and the
    fresh [_id] is an ObjectId that no game of the catalog had, reading the
    game by that id right after gives the very reply the create gave, and
    changes nothing. *)
Theorem gameCreate_then_get {J : JsRuntime} (env : Env) (req_user : Payload)
        (body : Req.game) (db db' : Db) (r : Response) :
  failures db = [] ->
  castObjectId (toString (fresh_id env)) = Some (fresh_id env) ->
  (forall g, In g (games db) -> Game._id g <> fresh_id env) ->
  gameCreate env req_user body db = (r, db') ->
  status r = 200 ->
  gameGet (toString (fresh_id env)) db' = (r, db').
Proof.
  intros Hf Hcast Hfresh Hrun Hst.
  destruct (gameCreate_created _ _ _ _ _ _ Hrun Hst)
    as (game & uid & _ & Hid & _ & _ & _ & _ & -> & _ & Hgames & Hf').
  specialize (Hf' Hf).
  rewrite (gameGet_answer _ _ _ Hf' Hcast), Hgames.
  rewrite find_app_fresh; [reflexivity | | now apply gameById_true].
  intros g Hg. apply not_true_is_false. intros Hm.
  apply gameById_true in Hm. exact (Hfresh g Hg Hm).
Qed.

Lemma gameCreate_then_get_witness :
  gameGet Run.chess_id (snd Run.create_chess) = Run.create_chess.
Proof.
  apply (gameCreate_then_get (J := Plain.js) (Run.clock 3000 Run.chess_id)
           Run.ann (Run.titled "Chess" None) (snd Run.register_bob)).
  - reflexivity.
  - reflexivity.
  - intros g [].
  - reflexivity.
  - reflexivity.
Defined.

(** ** The catalog: updates *)

(** X3. On a store that answers, when an update is answered 200, reading
    the game by the same id right after gives the reply the update gave:
    the updated game. *)
Theorem gameUpdate_then_get {J : JsRuntime} (id : string) (update : Req.game)
        (db db' : Db) (r : Response) :
  failures db = [] ->
  gameUpdate id update db = (r, db') ->
  status r = 200 ->
  gameGet id db' = (r, db').
Proof.
  intros Hf Hrun Hst.
  destruct (gameUpdate_updated _ _ _ _ _ Hrun Hst)
    as (oid & old & cast & Hc & _ & Hold & -> & _ & Hgames & Hf').
  specialize (Hf' Hf).
  rewrite (gameGet_answer _ _ _ Hf' Hc), Hgames.
  rewrite (find_replace_first _ old); [reflexivity | assumption |].
  apply find_some in Hold. destruct Hold as [_ Hold]. exact Hold.
Qed.

Lemma gameUpdate_then_get_witness :
  gameGet Run.chess_id (snd Tour.update_chess) = Tour.update_chess.
Proof.
  apply (gameUpdate_then_get (J := Plain.js) Run.chess_id Tour.rename
           Run.populated).
  - reflexivity.
  - reflexivity.
  - reflexivity.
Defined.

(** X4. An update never touches the users, never changes the [_id] of a
    game nor the order of the catalog, changes the [createdBy] of a game
    only when the body carries a [createdBy], and leaves the catalog as it
    was whenever its reply is not 200 (unknown id, malformed id, a body
    that does not cast to the schema, a call the store rejects).  A body
    that does not cast, because its [releaseDate] is no date or its
    [createdBy] no ObjectId, is answered 500 'Server error' before anything
    is sent to the store. *)
Theorem gameUpdate_frame {J : JsRuntime} (id : string) (update : Req.game)
        (db : Db) :
  users (snd (gameUpdate id update db)) = users db
  /\ map Game._id (games (snd (gameUpdate id update db)))
     = map Game._id (games db)
  /\ (Req.createdBy update = None ->
      map Game.createdBy (games (snd (gameUpdate id update db)))
      = map Game.createdBy (games db))
  /\ (status (fst (gameUpdate id update db)) <> 200 ->
      games (snd (gameUpdate id update db)) = games db)
  /\ (castUpdate update = None ->
      gameUpdate id update db = (res_status 500 (Message "Server error"), db)).
Proof.
  assert (Hcast500 : castUpdate update = None ->
            gameUpdate id update db
            = (res_status 500 (Message "Server error"), db)).
  { intros Hnone. unfold gameUpdate, Game_findByIdAndUpdate. run.
    rewrite Hnone. now destruct (castObjectId id). }
  destruct (gameUpdate_effect id update db)
    as [Hus [[Hgs _] | (oid & old & cast & Hcast & Hold & Hst & Hgs)]].
  - rewrite Hus, Hgs. repeat split; try reflexivity. exact Hcast500.
  - rewrite Hus, Hgs. split; [reflexivity |].
    split; [| split; [| split; [| exact Hcast500]]].
    + eapply replace_first_map; [eassumption | reflexivity].
    + intros Hby. eapply replace_first_map; [eassumption |].
      unfold castUpdate in Hcast. rewrite Hby in Hcast.
      destruct (castPath castDate (Req.releaseDate update)); [| discriminate].
      simpl in Hcast. inversion Hcast; subst. reflexivity.
    + intros Hne. contradiction.
Qed.

(** X5. The title check is on create only.  A body whose title is
    missing or empty is refused by create with 400 'Title required' and
    nothing is stored; the same body with the empty title, when it casts
    to the schema and is sent as an update of a game of the catalog to a
    store that answers, is answered 200 and leaves that game with an empty
    title. *)
Theorem title_required_on_create_only {J : JsRuntime} (body : Req.game)
        (db : Db) :
  truthy (Req.title body) = None ->
  (forall env req_user,
      gameCreate env req_user body db
      = (res_status 400 (Message "Title required"), db))
  /\ (forall id oid old cast,
        failures db = [] ->
        Req.title body = Some "" ->
        castUpdate body = Some cast ->
        castObjectId id = Some oid ->
        find (gameById oid) (games db) = Some old ->
        exists game,
          fst (gameUpdate id body db) = res_json (GameJson game)
          /\ Game.title game = ""
          /\ In game (games (snd (gameUpdate id body db)))).
Proof.
  intros Htitle. split.
  - intros env req_user. unfold gameCreate, handler. now rewrite Htitle.
  - intros id oid old cast Hf Hempty Hcast Hc Hold.
    exists (applyUpdate cast old).
    destruct db as [us gs fs]. simpl in Hf, Hold. subst fs.
    unfold gameUpdate, Game_findByIdAndUpdate. run.
    rewrite Hc. simpl. rewrite Hcast. simpl. rewrite Hold. simpl.
    split; [reflexivity |]. split.
    + unfold castUpdate in Hcast.
      destruct (castPath castDate (Req.releaseDate body)); [| discriminate].
      destruct (castPath castObjectId (Req.createdBy body)); [| discriminate].
      inversion Hcast; subst. simpl. now rewrite Hempty.
    + eapply replace_first_In; eassumption.
Qed.

Lemma title_required_on_create_only_witness :
  gameCreate (J := Plain.js) (Run.clock 4000 Run.go_id) Run.ann
             Tour.blank_title Run.populated
  = (res_status 400 (Message "Title required"), Run.populated)
  /\ exists game,
       fst (gameUpdate (J := Plain.js) Run.chess_id Tour.blank_title
                       Run.populated)
       = res_json (GameJson game)
       /\ Game.title game = ""
       /\ In game (games (snd (gameUpdate (J := Plain.js) Run.chess_id
                                          Tour.blank_title Run.populated))).
Proof.
  pose proof (title_required_on_create_only (J := Plain.js) Tour.blank_title
                Run.populated eq_refl) as [Hcreate Hupdate].
  split.
  - exact (Hcreate (Run.clock 4000 Run.go_id) Run.ann).
  - exact (Hupdate Run.chess_id Run.chess_id _ _
                   eq_refl eq_refl eq_refl eq_refl eq_refl).
Defined.

(** ** The catalog: creation *)

(** X6. A create never touches the users or the games already in the
    catalog.  When its reply is not 200 (no title, a token id that is no
    ObjectId, a [releaseDate] that is no date, a call the store rejects)
    the catalog is as it was; when it is 200, one game was appended: it has
    a non-empty title, the price [price || 0] of the body that was parsed,
    the date read from [releaseDate] or none, and [createdBy] is the id in
    the caller's token. *)
Theorem gameCreate_frame {J : JsRuntime} (env : Env) (req_user : Payload)
        (body : Req.game) (db : Db) :
  users (snd (gameCreate env req_user body db)) = users db
  /\ (status (fst (gameCreate env req_user body db)) <> 200 ->
      games (snd (gameCreate env req_user body db)) = games db)
  /\ (releaseDate_of (Req.releaseDate body) = None ->
      status (fst (gameCreate env req_user body db)) <> 200)
  /\ (status (fst (gameCreate env req_user body db)) = 200 ->
      exists game,
        fst (gameCreate env req_user body db) = res_json (GameJson game)
        /\ games (snd (gameCreate env req_user body db)) = games db ++ [game]
        /\ Game.title game <> ""
        /\ (parsed body = true -> Game.price game = or_zero (Req.price body))
        /\ releaseDate_of (Req.releaseDate body) = Some (Game.releaseDate game)
        /\ Game.createdBy game
           = castObjectId (claim_id (claims req_user))).
Proof.
  split; [| split; [| split]].
  - unfold gameCreate, Game_save_new. run.
    repeat (branch; run; try reflexivity).
  - unfold gameCreate, Game_save_new. run.
    repeat (branch; run; try reflexivity; try congruence).
  - intros Hdate. unfold gameCreate. run. rewrite Hdate.
    repeat (branch; run; try discriminate).
  - intros Hst.
    destruct (gameCreate env req_user body db) as [r db'] eqn:Hrun.
    destruct (gameCreate_created _ _ _ _ _ _ Hrun Hst)
      as (game & uid & Hu & _ & Hby & Htitle & Hprice & Hdate & -> & _
          & Hgames & _).
    exists game. simpl.
    split; [reflexivity |]. split; [assumption |].
    split; [apply truthy_Some in Htitle; now destruct Htitle |].
    split; [intros _; assumption |].
    split; [assumption | congruence].
Qed.

Lemma gameCreate_frame_witness :
  exists game,
    fst Run.create_chess = res_json (GameJson game)
    /\ games (snd Run.create_chess) = games (snd Run.register_bob) ++ [game]
    /\ Game.title game <> ""
    /\ (parsed (Run.titled "Chess" None) = true -> Game.price game = or_zero None)
    /\ releaseDate_of (J := Plain.js) None = Some (Game.releaseDate game)
    /\ Game.createdBy game = castObjectId Run.ann_id.
Proof.
  exact (proj2 (proj2 (proj2 (gameCreate_frame (J := Plain.js)
                         (Run.clock 3000 Run.chess_id) Run.ann
                         (Run.titled "Chess" None) (snd Run.register_bob))))
               eq_refl).
Defined.

(** ** The catalog: deletion *)

(** X7. When a delete is answered 200, exactly this was written: the
    first game with the id left the catalog, the other games stay in
    their order, and every user is as before except that the id is gone
    from the library, whose other ids stay in their order.  When it is
    answered 404, nothing was written. *)
Theorem gameDelete_exact (id : string) (db : Db) :
  (status (fst (gameDelete id db)) = 200 ->
   exists oid,
     castObjectId id = Some oid
     /\ games (snd (gameDelete id db)) = remove_first (gameById oid) (games db)
     /\ users (snd (gameDelete id db))
        = map (fun u => User.set_library u (pull oid (User.library u)))
              (users db))
  /\ (status (fst (gameDelete id db)) = 404 ->
      users (snd (gameDelete id db)) = users db
      /\ games (snd (gameDelete id db)) = games db).
Proof.
  split.
  - intros Hst.
    destruct (gameDelete id db) as [r db'] eqn:Hrun.
    destruct (gameDelete_deleted _ _ _ _ Hrun Hst)
      as (oid & game & Hc & _ & Hgames & Husers & _).
    exists oid. now repeat split.
  - unfold gameDelete, Game_findByIdAndDelete, User_updateMany_pull. run.
    repeat (branch; run; try discriminate).
    all: repeat match goal with
           | E : (_, _) = (_, _) |- _ => inversion E; subst; clear E
           end; simpl in *; try discriminate.
    all: intros _; split; try reflexivity.
    all: now apply remove_first_none.
Qed.

Lemma gameDelete_exact_witness :
  exists oid,
    castObjectId Run.chess_id = Some oid
    /\ games (snd Tour.delete_chess)
       = remove_first (gameById oid) (games Run.populated)
    /\ users (snd Tour.delete_chess)
       = map (fun u => User.set_library u (pull oid (User.library u)))
             (users Run.populated).
Proof.
  exact (proj1 (gameDelete_exact Run.chess_id Run.populated) eq_refl).
Defined.

(** X8. On a store that answers and a catalog without two games of one
    id, once a delete is answered 200 the game is gone: reading it by
    that id is answered 404 'Not found', and so is deleting it again,
    which writes nothing. *)
Theorem gameDelete_then_gone (id : string) (db db' : Db) (r : Response) :
  failures db = [] ->
  NoDup (map Game._id (games db)) ->
  gameDelete id db = (r, db') ->
  status r = 200 ->
  gameGet id db' = (res_status 404 (Message "Not found"), db')
  /\ gameDelete id db' = (res_status 404 (Message "Not found"), db').
Proof.
  intros Hf Hnd Hrun Hst.
  destruct (gameDelete_deleted _ _ _ _ Hrun Hst)
    as (oid & game & Hc & _ & Hgames & _ & Hf').
  specialize (Hf' Hf).
  assert (Hgone : find (gameById oid) (games db') = None)
    by (rewrite Hgames; now apply find_remove_first).
  split.
  - now rewrite (gameGet_answer _ _ _ Hf' Hc), Hgone.
  - destruct db' as [us gs fs]. simpl in *. subst fs.
    unfold gameDelete, Game_findByIdAndDelete. run. rewrite Hc. simpl.
    rewrite Hgone. simpl. unfold set_games. simpl.
    now rewrite (remove_first_none _ _ Hgone).
Qed.

Lemma gameDelete_then_gone_witness :
  gameGet Run.chess_id (snd Tour.delete_chess)
  = (res_status 404 (Message "Not found"), snd Tour.delete_chess)
  /\ gameDelete Run.chess_id (snd Tour.delete_chess)
     = (res_status 404 (Message "Not found"), snd Tour.delete_chess).
Proof.
  apply (gameDelete_then_gone Run.chess_id Run.populated
           (snd Tour.delete_chess) (fst Tour.delete_chess)).
  - reflexivity.
  - simpl. constructor; [intros [] | constructor].
  - reflexivity.
  - reflexivity.
Defined.

Lemma gameUpdate_frame_witness :
  map Game.createdBy (games (snd Tour.update_chess))
  = map Game.createdBy (games Run.populated)
  /\ games (snd (gameUpdate (J := Plain.js) Run.go_id Tour.rename Run.populated))
     = games Run.populated
  /\ gameUpdate (J := Plain.js) Run.chess_id Tour.undated Run.populated
     = (res_status 500 (Message "Server error"), Run.populated).
Proof.
  split; [| split].
  - exact (proj1 (proj2 (proj2 (gameUpdate_frame (J := Plain.js) Run.chess_id
                                   Tour.rename Run.populated)))
                 eq_refl).
  - apply (proj1 (proj2 (proj2 (proj2 (gameUpdate_frame (J := Plain.js)
                                          Run.go_id Tour.rename
                                          Run.populated))))).
    vm_compute. discriminate.
  - exact (proj2 (proj2 (proj2 (proj2 (gameUpdate_frame (J := Plain.js)
                                          Run.chess_id Tour.undated
                                          Run.populated))))
                 eq_refl).
Defined.

(** ** The library: what the two writes do to the users *)

Lemma libraryAdd_effect (req_user : Payload) (gameId : option string) (db : Db) :
  games (snd (libraryAdd req_user gameId db)) = games db
  /\ (users (snd (libraryAdd req_user gameId db)) = users db
      \/ exists uid user game,
           find (byId uid) (users db) = Some user
           /\ In game (games db)
           /\ ~ In (Game._id game) (User.library user)
           /\ users (snd (libraryAdd req_user gameId db))
              = replace_first (byId uid)
                  (User.set_library user
                     (User.library user ++ [Game._id game]))
                  (users db)).
Proof.
  unfold libraryAdd, Game_findById, User_findById, User_save. run.
  repeat (branch; run; try (split; [reflexivity | left; reflexivity])).
  all: split; [reflexivity | right].
  all: match goal with
       | Eu : find (byId ?uid) _ = Some ?user,
         Eg : find (gameById _) _ = Some ?game,
         Ei : includes _ _ = false |- _ =>
           exists uid, user, game;
           pose proof (find_some _ _ Eu) as [_ Hid];
           apply byId_true in Hid;
           pose proof (find_some _ _ Eg) as [Hin _];
           apply includes_not_In in Ei;
           rewrite Hid; repeat split; assumption || reflexivity
       end.
Qed.

Lemma libraryRemove_effect (req_user : Payload) (gameId : option string)
      (db : Db) :
  games (snd (libraryRemove req_user gameId db)) = games db
  /\ (users (snd (libraryRemove req_user gameId db)) = users db
      \/ exists uid user gid,
           find (byId uid) (users db) = Some user
           /\ users (snd (libraryRemove req_user gameId db))
              = replace_first (byId uid)
                  (User.set_library user (pull gid (User.library user)))
                  (users db)).
Proof.
  unfold libraryRemove, User_findById, User_save. run.
  repeat (branch; run; try (split; [reflexivity | left; reflexivity])).
  all: split; [reflexivity | right].
  all: match goal with
       | Eu : find (byId ?uid) _ = Some ?user,
         Et : truthy _ = Some ?gid |- _ =>
           exists uid, user, gid;
           pose proof (find_some _ _ Eu) as [_ Hid];
           apply byId_true in Hid;
           rewrite Hid; split; assumption || reflexivity
       end.
Qed.

Lemma libraryRemove_removed (req_user : Payload) (gameId : option string)
      (db db' : Db) (r : Response) :
  failures db = [] ->
  libraryRemove req_user gameId db = (r, db') ->
  status r = 200 ->
  exists gid uid user,
    truthy gameId = Some gid
    /\ castObjectId (claim_id (claims req_user)) = Some uid
    /\ find (byId uid) (users db) = Some user
    /\ r = res_json (LibraryJson "Removed" (pull gid (User.library user)))
    /\ db' = set_users
               (replace_first (byId uid)
                  (User.set_library user (pull gid (User.library user)))
                  (users db)) db.
Proof.
  intros Hf Hrun Hst. unfold libraryRemove, handler, bind in Hrun.
  destruct (truthy gameId) as [gid|] eqn:Egid;
    [| inversion Hrun; subst; discriminate].
  destruct (castObjectId (claim_id (claims req_user))) as [uid|] eqn:Euid.
  2:{ unfold User_findById, castId, bind, throw in Hrun. rewrite Euid in Hrun.
      inversion Hrun; subst; discriminate. }
  rewrite (User_findById_ok _ _ _ Hf Euid) in Hrun.
  destruct (find (byId uid) (users db)) as [user|] eqn:Euser;
    [| inversion Hrun; subst; discriminate].
  rewrite (User_save_ok _ _ Hf) in Hrun. unfold ret in Hrun.
  inversion Hrun; subst; clear Hrun.
  exists gid, uid, user.
  assert (Hid : User._id user = uid).
  { apply find_some in Euser. now apply byId_true. }
  simpl. rewrite Hid. repeat split; assumption || reflexivity.
Qed.

Lemma set_users_same (db : Db) : set_users (users db) db = db.
Proof. now destruct db. Qed.

(** ** The library: how add and remove compose *)

(** X9. On a store that answers, when an add of a game id in the
    server's own spelling is answered 200, a remove of the same id right
    after is answered 200 with the library as it was before the add, and
    the store is again exactly the store before the add. *)
Theorem libraryAdd_then_remove (req_user : Payload) (gameId : string)
        (db db' : Db) (r : Response) :
  failures db = [] ->
  castObjectId gameId = Some gameId ->
  libraryAdd req_user (Some gameId) db = (r, db') ->
  status r = 200 ->
  exists library,
    r = res_json (LibraryJson "Added" (library ++ [gameId]))
    /\ libraryRemove req_user (Some gameId) db'
       = (res_json (LibraryJson "Removed" library), db).
Proof.
  intros Hf Hcanon Hrun Hst.
  destruct (libraryAdd_added _ _ _ _ _ Hf Hrun Hst)
    as (gid & oid & uid & game & user & Hgid & Hoid & Hgame & Huid & Huser
        & Hnot & -> & ->).
  apply truthy_Some in Hgid. destruct Hgid as [Hgid Hne].
  inversion Hgid; subst gid; clear Hgid.
  assert (Hg : Game._id game = gameId).
  { apply find_some in Hgame. destruct Hgame as [_ Hgame].
    apply gameById_true in Hgame. congruence. }
  assert (Hid : User._id user = uid).
  { apply find_some in Huser. now apply byId_true. }
  exists (User.library user). split; [now rewrite Hg |].
  rewrite (libraryRemove_found req_user gameId _ uid
             (User.set_library user (User.library user ++ [Game._id game])));
    try assumption.
  - cbv zeta. cbn [User.library User.set_library users set_users].
    rewrite Hg in *. rewrite (pull_last _ _ Hnot). f_equal.
    rewrite replace_first_again by (now apply byId_true).
    rewrite set_library_back, (replace_first_same _ _ _ Huser).
    now destruct db.
  - cbn [users set_users]. apply (find_saved uid user); assumption.
Qed.

Lemma libraryAdd_then_remove_witness :
  exists library,
    fst Run.add_chess = res_json (LibraryJson "Added" (library ++ [Run.chess_id]))
    /\ libraryRemove Run.ann (Some Run.chess_id) Run.populated
       = (res_json (LibraryJson "Removed" library), snd Run.create_chess).
Proof.
  apply (libraryAdd_then_remove Run.ann Run.chess_id (snd Run.create_chess)
           Run.populated (fst Run.add_chess)).
  - reflexivity.
  - reflexivity.
  - reflexivity.
  - reflexivity.
Defined.

(** X10. The remove compares spellings.  On a store that answers, when
    an add is answered 200 for a gameId that is not spelled as the server
    prints the id (upper-case digits), a remove with that same gameId is
    answered 200 'Removed' and the game's id is still in the library. *)
Theorem libraryRemove_other_spelling (req_user : Payload) (gameId : string)
        (oid : ObjectId) (db db' : Db) (r : Response) :
  failures db = [] ->
  castObjectId gameId = Some oid ->
  toString oid <> gameId ->
  libraryAdd req_user (Some gameId) db = (r, db') ->
  status r = 200 ->
  exists library,
    fst (libraryRemove req_user (Some gameId) db')
    = res_json (LibraryJson "Removed" library)
    /\ In oid library.
Proof.
  intros Hf Hcast Hother Hrun Hst.
  destruct (libraryAdd_added _ _ _ _ _ Hf Hrun Hst)
    as (gid & oid' & uid & game & user & Hgid & Hoid & Hgame & Huid & Huser
        & Hnot & -> & ->).
  apply truthy_Some in Hgid. destruct Hgid as [Hgid Hne].
  inversion Hgid; subst gid; clear Hgid.
  assert (oid' = oid) by congruence. subst oid'.
  assert (Hg : Game._id game = oid).
  { apply find_some in Hgame. destruct Hgame as [_ Hgame].
    now apply gameById_true in Hgame. }
  assert (Hid : User._id user = uid).
  { apply find_some in Huser. now apply byId_true. }
  eexists. split.
  - rewrite (libraryRemove_found req_user gameId _ uid
               (User.set_library user (User.library user ++ [Game._id game])));
      try assumption.
    + reflexivity.
    + cbn [users set_users]. apply (find_saved uid user); assumption.
  - cbv zeta. cbn [User.library User.set_library]. apply pull_In.
    split; [| exact Hother].
    apply in_or_app. right. left. exact Hg.
Qed.

Lemma libraryRemove_other_spelling_witness :
  exists library,
    fst (libraryRemove Run.ann (Some Tour.shouted)
           (snd (libraryAdd Run.ann (Some Tour.shouted) (snd Run.create_chess))))
    = res_json (LibraryJson "Removed" library)
    /\ In Run.chess_id library.
Proof.
  apply (libraryRemove_other_spelling Run.ann Tour.shouted Run.chess_id
           (snd Run.create_chess)
           (snd (libraryAdd Run.ann (Some Tour.shouted) (snd Run.create_chess)))
           (fst (libraryAdd Run.ann (Some Tour.shouted) (snd Run.create_chess)))).
  - reflexivity.
  - reflexivity.
  - discriminate.
  - reflexivity.
  - reflexivity.
Defined.

(** X11. On a store that answers, a remove that was answered 200 and is
    sent again gets the same reply and leaves the store as the first one
    left it. *)
Theorem libraryRemove_twice (req_user : Payload) (gameId : option string)
        (db db' : Db) (r : Response) :
  failures db = [] ->
  libraryRemove req_user gameId db = (r, db') ->
  status r = 200 ->
  libraryRemove req_user gameId db' = (r, db').
Proof.
  intros Hf Hrun Hst.
  destruct (libraryRemove_removed _ _ _ _ _ Hf Hrun Hst)
    as (gid & uid & user & Hgid & Huid & Huser & -> & ->).
  apply truthy_Some in Hgid. destruct Hgid as [-> Hne].
  assert (Hid : User._id user = uid).
  { apply find_some in Huser. now apply byId_true. }
  rewrite (libraryRemove_found req_user gid _ uid
             (User.set_library user (pull gid (User.library user))));
    try assumption.
  - cbv zeta. cbn [User.library User.set_library users set_users].
    rewrite pull_pull. f_equal.
    rewrite replace_first_again by (now apply byId_true).
    now destruct db.
  - cbn [users set_users]. apply (find_saved uid user); assumption.
Qed.

Lemma libraryRemove_twice_witness :
  libraryRemove Run.ann (Some Run.chess_id) (snd Tour.remove_chess)
  = Tour.remove_chess.
Proof.
  apply (libraryRemove_twice Run.ann (Some Run.chess_id) Run.populated).
  - reflexivity.
  - reflexivity.
  - reflexivity.
Defined.

(** ** What one request keeps

    The two statements below are about one request that runs from its
    first read to its reply with no other request in between.  The
    handlers await between their reads and their write, so requests that
    overlap are not covered: two overlapping adds of one game can both pass
    the test and put the id in the library twice. *)

Lemma gameDelete_effect (id : string) (db : Db) :
  failures db = [] ->
  (users (snd (gameDelete id db)) = users db
   /\ games (snd (gameDelete id db)) = games db)
  \/ exists oid,
       games (snd (gameDelete id db)) = remove_first (gameById oid) (games db)
       /\ users (snd (gameDelete id db))
          = map (fun u => User.set_library u (pull oid (User.library u)))
                (users db).
Proof.
  intros Hf.
  destruct (Nat.eq_dec (status (fst (gameDelete id db))) 200) as [Hst | Hst].
  - right. destruct (gameDelete id db) as [r db'] eqn:Hrun.
    destruct (gameDelete_deleted _ _ _ _ Hrun Hst)
      as (oid & game & _ & _ & Hg & Hu & _).
    now exists oid.
  - left. revert Hst. destruct db as [us gs fs]. simpl in Hf. subst fs.
    unfold gameDelete, Game_findByIdAndDelete, User_updateMany_pull. run.
    repeat (branch; run; try congruence).
    all: intros _; split; try reflexivity.
    all: now apply remove_first_none.
Qed.

(** X12. A request on its own puts no id twice in a library: when no
    library of the store holds an id twice at its start, that is still so
    at its end, for any add, any remove and any delete of a game, whatever
    they reply. *)
Theorem libraries_stay_distinct (db : Db) :
  distinct db ->
  (forall req_user gameId, distinct (snd (libraryAdd req_user gameId db)))
  /\ (forall req_user gameId, distinct (snd (libraryRemove req_user gameId db)))
  /\ (forall id, distinct (snd (gameDelete id db))).
Proof.
  intros Hd. split; [| split].
  - intros req_user gameId u Hu.
    destruct (libraryAdd_effect req_user gameId db)
      as [_ [Hsame | (uid & user & game & Huser & _ & Hnot & Hus)]].
    + rewrite Hsame in Hu. now apply Hd.
    + rewrite Hus in Hu. apply replace_first_elem in Hu.
      destruct Hu as [-> | Hu]; [| now apply Hd].
      simpl. apply find_some in Huser. destruct Huser as [Hin _].
      apply NoDup_app; [now apply Hd | repeat constructor; intros [] |].
      intros x Hx [<- | []]. contradiction.
  - intros req_user gameId u Hu.
    destruct (libraryRemove_effect req_user gameId db)
      as [_ [Hsame | (uid & user & gid & Huser & Hus)]].
    + rewrite Hsame in Hu. now apply Hd.
    + rewrite Hus in Hu. apply replace_first_elem in Hu.
      destruct Hu as [-> | Hu]; [| now apply Hd].
      simpl. apply pull_NoDup. apply find_some in Huser.
      destruct Huser as [Hin _]. now apply Hd.
  - intros id u Hu. revert Hu.
    unfold gameDelete, Game_findByIdAndDelete, User_updateMany_pull. run.
    repeat (branch; run); try (now apply Hd).
    all: rewrite in_map_iff; intros [v [<- Hv]].
    all: destruct (includes _ (User.library v));
      [simpl; apply pull_NoDup |]; now apply Hd.
Qed.

Lemma libraries_stay_distinct_witness :
  distinct (snd (libraryAdd Run.ann (Some Run.chess_id) Run.populated)).
Proof.
  refine (proj1 (libraries_stay_distinct Run.populated _) Run.ann
                (Some Run.chess_id)).
  intros u Hu. vm_compute in Hu.
  destruct Hu as [<- | [<- | []]]; simpl.
  - constructor; [intros [] | constructor].
  - constructor.
Defined.

Section Invariants.
Context {J : JsRuntime} {L : CryptoLib}.

(** X13. A request on its own leaves no library pointing outside the
    catalog: when every id in every library is the id of a game of the
    catalog at its start, that is still so at its end, for any add, remove,
    create, update or registration, whatever they reply, and for any delete
    sent to a store that answers. *)
Theorem libraries_stay_resolved (db : Db) :
  resolved db ->
  (forall req_user gameId, resolved (snd (libraryAdd req_user gameId db)))
  /\ (forall req_user gameId, resolved (snd (libraryRemove req_user gameId db)))
  /\ (forall env req_user body, resolved (snd (gameCreate env req_user body db)))
  /\ (forall id update, resolved (snd (gameUpdate id update db)))
  /\ (forall env username email password,
        resolved (snd (register env username email password db)))
  /\ (forall id, failures db = [] -> resolved (snd (gameDelete id db))).
Proof.
  intros Hr. repeat split.
  - intros req_user gameId u id Hu Hid.
    destruct (libraryAdd_effect req_user gameId db)
      as [Hg [Hsame | (uid & user & game & Huser & Hgame & _ & Hus)]];
      rewrite Hg.
    + rewrite Hsame in Hu. now apply (Hr u).
    + rewrite Hus in Hu. apply replace_first_elem in Hu.
      destruct Hu as [-> | Hu]; [| now apply (Hr u)].
      simpl in Hid. apply in_app_or in Hid. destruct Hid as [Hid | [<- | []]].
      * apply find_some in Huser. destruct Huser as [Hin _].
        now apply (Hr user).
      * now exists game.
  - intros req_user gameId u id Hu Hid.
    destruct (libraryRemove_effect req_user gameId db)
      as [Hg [Hsame | (uid & user & gid & Huser & Hus)]]; rewrite Hg.
    + rewrite Hsame in Hu. now apply (Hr u).
    + rewrite Hus in Hu. apply replace_first_elem in Hu.
      destruct Hu as [-> | Hu]; [| now apply (Hr u)].
      simpl in Hid. apply pull_In in Hid. destruct Hid as [Hid _].
      apply find_some in Huser. destruct Huser as [Hin _].
      now apply (Hr user).
  - intros env req_user body u id Hu Hid.
    destruct (gameCreate_grows env req_user body db) as (Hus & Hgrow).
    rewrite Hus in Hu. destruct (Hr u id Hu Hid) as [g [Hg Hgid]].
    exists g. split; [now apply Hgrow | assumption].
  - intros id update u gid Hu Hid.
    destruct (gameUpdate_ids id update db) as (Hus & Hids).
    rewrite Hus in Hu. destruct (Hr u gid Hu Hid) as [g [Hg Hgid]].
    assert (Hin : In gid (map Game._id (games (snd (gameUpdate id update db))))).
    { rewrite Hids. apply in_map_iff. now exists g. }
    apply in_map_iff in Hin. destruct Hin as [g' [Hg' Hin']]. now exists g'.
  - intros env username email password u id Hu Hid.
    assert (Hg : games (snd (register env username email password db))
                 = games db).
    { unfold register, User_findOne, User_save_new. run.
      repeat (branch; run; try reflexivity). }
    rewrite Hg.
    destruct (register_users env username email password db)
      as [Hsame | [user [Hus _]]].
    + rewrite Hsame in Hu. now apply (Hr u).
    + revert Hu Hid Hus.
      unfold register, User_findOne, User_save_new. run.
      repeat (branch; run); intros Hu Hid Hus; try (now apply (Hr u)).
      all: apply in_app_or in Hu; destruct Hu as [Hu | [<- | []]];
        [now apply (Hr u) | destruct Hid].
  - intros id Hf u gid Hu Hid.
    destruct (gameDelete_effect id db Hf) as [[Hus Hgs] | (oid & Hgs & Hus)].
    + rewrite Hus in Hu. rewrite Hgs. now apply (Hr u).
    + rewrite Hus in Hu. rewrite Hgs.
      apply in_map_iff in Hu. destruct Hu as [v [<- Hv]].
      simpl in Hid. apply pull_In in Hid. destruct Hid as [Hid Hne].
      destruct (Hr v gid Hv Hid) as [g [Hg Hgid]].
      exists g. split; [| assumption].
      apply remove_first_keeps; [assumption |].
      apply not_true_is_false. intros Hm. apply gameById_true in Hm.
      congruence.
Qed.

End Invariants.

Lemma libraries_stay_resolved_witness :
  resolved (snd (gameDelete Run.chess_id Run.populated)).
Proof.
  refine (proj2 (proj2 (proj2 (proj2 (proj2
            (libraries_stay_resolved (J := Plain.js) (L := Sym.lib)
               Run.populated _)))))
            Run.chess_id eq_refl).
  intros u id Hu Hid. vm_compute in Hu.
  destruct Hu as [<- | [<- | []]]; simpl in Hid.
  - destruct Hid as [<- | []]. eexists. split; [left; reflexivity | reflexivity].
  - destruct Hid.
Defined.

(** ** The library: listing it *)

Lemma lookup_game_ids (gs : list Game.doc) (ids : list ObjectId) :
  map Game._id (flat_map (lookup_game gs) ids)
  = filter (fun id => existsb (gameById id) gs) ids.
Proof.
  induction ids as [|id ids IH]; simpl; [reflexivity |].
  rewrite map_app, IH. unfold lookup_game.
  destruct (find (gameById id) gs) as [g|] eqn:F.
  - pose proof (find_some _ _ F) as [Hin Hg].
    assert (Hex : existsb (gameById id) gs = true)
      by (apply existsb_exists; now exists g).
    rewrite Hex. simpl. apply gameById_true in Hg. now rewrite Hg.
  - assert (Hex : existsb (gameById id) gs = false).
    { apply not_true_is_false. intros Hex. apply existsb_exists in Hex.
      destruct Hex as [g [Hin Hg]].
      pose proof (find_none _ _ F g Hin) as Hn. congruence. }
    now rewrite Hex.
Qed.

Lemma lookup_game_In (gs : list Game.doc) (ids : list ObjectId) (g : Game.doc) :
  In g (flat_map (lookup_game gs) ids) -> In g gs /\ In (Game._id g) ids.
Proof.
  rewrite in_flat_map. intros [id [Hid Hg]]. unfold lookup_game in Hg.
  destruct (find (gameById id) gs) as [h|] eqn:F; [| destruct Hg].
  destruct Hg as [<- | []]. apply find_some in F. destruct F as [Hin Hh].
  apply gameById_true in Hh. split; [assumption | now rewrite Hh].
Qed.

Lemma libraryGet_found (req_user : Payload) (db : Db) (uid : ObjectId)
      (user : User.doc) :
  failures db = [] ->
  castObjectId (claim_id (claims req_user)) = Some uid ->
  find (byId uid) (users db) = Some user ->
  libraryGet req_user db
  = (Games (flat_map (lookup_game (games db)) (User.library user)), db).
Proof.
  intros Hf Hc Hu. unfold libraryGet, listing_handler, bind.
  rewrite (User_findById_ok _ _ _ Hf Hc), Hu.
  unfold populate_library.
  destruct (User.library user) as [|id ids]; [reflexivity |].
  unfold bind, gets, ret. now rewrite (roundtrip_ok _ Hf).
Qed.

(** X14. [GET /api/library] never changes a collection.  On a store
    that answers it is answered 404 'User not found' when the token's id
    names no user; otherwise with games of the catalog: one for each id of
    the user's library that names a game, in the order of the library, the
    ids that name no game being left out.  When every id of the library
    names a game the listing has exactly the ids of the library. *)
Theorem libraryGet_listing (req_user : Payload) (db : Db) :
  users (snd (libraryGet req_user db)) = users db
  /\ games (snd (libraryGet req_user db)) = games db
  /\ (forall uid,
        failures db = [] ->
        castObjectId (claim_id (claims req_user)) = Some uid ->
        (find (byId uid) (users db) = None ->
         fst (libraryGet req_user db)
         = Refused (res_status 404 (Message "User not found")))
        /\ (forall user,
              find (byId uid) (users db) = Some user ->
              exists listing,
                fst (libraryGet req_user db) = Games listing
                /\ (forall g, In g listing -> In g (games db))
                /\ map Game._id listing
                   = filter (fun id => existsb (gameById id) (games db))
                            (User.library user)
                /\ (resolved db ->
                    map Game._id listing = User.library user))).
Proof.
  split; [| split].
  - unfold libraryGet, listing_handler, User_findById, populate_library. run.
    repeat (branch; run; try reflexivity).
  - unfold libraryGet, listing_handler, User_findById, populate_library. run.
    repeat (branch; run; try reflexivity).
  - intros uid Hf Hc. split.
    + intros Hnone. unfold libraryGet, listing_handler, bind.
      now rewrite (User_findById_ok _ _ _ Hf Hc), Hnone.
    + intros user Hu. eexists. split; [| split; [| split]].
      * now rewrite (libraryGet_found _ _ _ _ Hf Hc Hu).
      * intros g Hg. now apply lookup_game_In in Hg.
      * apply lookup_game_ids.
      * intros Hr. rewrite lookup_game_ids.
        apply find_some in Hu. destruct Hu as [Hin _].
        apply forallb_filter_id. apply forallb_forall. intros id Hid.
        destruct (Hr user id Hin Hid) as [g [Hg Hgid]].
        apply existsb_exists. exists g. split; [assumption |].
        now apply gameById_true.
Qed.

Lemma libraryGet_listing_witness :
  exists listing,
    fst (libraryGet Run.ann Run.populated) = Games listing
    /\ (forall g, In g listing -> In g (games Run.populated))
    /\ map Game._id listing
       = filter (fun id => existsb (gameById id) (games Run.populated))
                [Run.chess_id]
    /\ (resolved Run.populated -> map Game._id listing = [Run.chess_id]).
Proof.
  exact (proj2 (proj2 (proj2 (libraryGet_listing Run.ann Run.populated))
                  Run.ann_id eq_refl eq_refl) _ eq_refl).
Defined.

Lemma User_findById_In (id : string) (db db1 : Db) (u : User.doc) :
  User_findById id db = (inr (Some u), db1) -> In u (users db).
Proof.
  unfold User_findById, castId, bind, gets, ret, throw, roundtrip.
  destruct (castObjectId id) as [oid|]; [| discriminate].
  destruct (failures db) as [|[] fs]; try discriminate.
  all: intros E; injection E as Hfind _; apply find_some in Hfind;
    now destruct Hfind.
Qed.

Lemma populate_library_sub (user : User.doc) (db db1 : Db)
      (l : list Game.doc) :
  populate_library user db = (inr l, db1) ->
  forall g, In g l -> In (Game._id g) (User.library user).
Proof.
  unfold populate_library, bind, gets, ret, roundtrip.
  destruct (User.library user) as [|id ids].
  - intros E. inversion E. intros g [].
  - destruct (failures db) as [|[] fs]; try discriminate.
    all: intros E; injection E as <- _; intros g Hg;
      exact (proj2 (lookup_game_In _ (id :: ids) g Hg)).
Qed.

Lemma libraryGet_from_library (req_user : Payload) (db : Db)
      (listing : list Game.doc) :
  fst (libraryGet req_user db) = Games listing ->
  exists user,
    In user (users db)
    /\ forall g, In g listing -> In (Game._id g) (User.library user).
Proof.
  unfold libraryGet, listing_handler, bind.
  destruct (User_findById (claim_id (claims req_user)) db)
    as [[e | [user|]] db1] eqn:Efind; try discriminate.
  destruct (populate_library user db1) as [[e | l] db2] eqn:Epop;
    try discriminate.
  simpl. intros E. inversion E; subst. exists user. split.
  - exact (User_findById_In _ _ _ _ Efind).
  - exact (populate_library_sub _ _ _ _ Epop).
Qed.

(** X15. On a store that answers, when an add is answered 200 the
    listing of the caller's library right after is the listing before the
    add followed by the game that was added. *)
Theorem libraryAdd_then_listed (req_user : Payload) (gameId : option string)
        (db db' : Db) (r : Response) :
  failures db = [] ->
  libraryAdd req_user gameId db = (r, db') ->
  status r = 200 ->
  exists listing game gid,
    fst (libraryGet req_user db) = Games listing
    /\ fst (libraryGet req_user db') = Games (listing ++ [game])
    /\ In game (games db)
    /\ truthy gameId = Some gid
    /\ castObjectId gid = Some (Game._id game).
Proof.
  intros Hf Hrun Hst.
  destruct (libraryAdd_added _ _ _ _ _ Hf Hrun Hst)
    as (gid & oid & uid & game & user & Hgid & Hoid & Hgame & Huid & Huser
        & Hnot & -> & ->).
  assert (Hg : Game._id game = oid).
  { apply find_some in Hgame. destruct Hgame as [_ Hgame].
    now apply gameById_true in Hgame. }
  assert (Hid : User._id user = uid).
  { apply find_some in Huser. now apply byId_true. }
  exists (flat_map (lookup_game (games db)) (User.library user)), game, gid.
  split; [now rewrite (libraryGet_found _ _ _ _ Hf Huid Huser) |].
  split.
  - rewrite (libraryGet_found req_user _ uid
               (User.set_library user (User.library user ++ [Game._id game])));
      try assumption.
    + cbn [fst games set_users User.library User.set_library].
      rewrite flat_map_app. simpl. unfold lookup_game at 2.
      rewrite Hg, Hgame. reflexivity.
    + cbn [users set_users]. apply (find_saved uid user); assumption.
  - split; [now apply find_some in Hgame |].
    split; [assumption | now rewrite Hg].
Qed.

Lemma libraryAdd_then_listed_witness :
  exists listing game gid,
    fst (libraryGet Run.ann (snd Run.create_chess)) = Games listing
    /\ fst (libraryGet Run.ann Run.populated) = Games (listing ++ [game])
    /\ In game (games (snd Run.create_chess))
    /\ truthy (Some Run.chess_id) = Some gid
    /\ castObjectId gid = Some (Game._id game).
Proof.
  apply (libraryAdd_then_listed Run.ann (Some Run.chess_id)
           (snd Run.create_chess) Run.populated (fst Run.add_chess)).
  - reflexivity.
  - reflexivity.
  - reflexivity.
Defined.

(** X16. On a store that answers, once a delete is answered 200 no
    listing of any user's library shows a game with the deleted id. *)
Theorem gameDelete_then_unlisted (id : string) (db db' : Db) (r : Response) :
  failures db = [] ->
  gameDelete id db = (r, db') ->
  status r = 200 ->
  forall req_user listing,
    fst (libraryGet req_user db') = Games listing ->
    forall g, In g listing -> castObjectId id <> Some (Game._id g).
Proof.
  intros Hf Hrun Hst req_user listing Hl g Hg Hsame.
  destruct (gameDelete_deleted _ _ _ _ Hrun Hst)
    as (oid & game & Hc & _ & _ & Hus & _).
  destruct (libraryGet_from_library _ _ _ Hl) as (user & Hin & Hlib).
  specialize (Hlib g Hg). rewrite Hus in Hin.
  apply in_map_iff in Hin. destruct Hin as [v [<- _]].
  simpl in Hlib. apply pull_In in Hlib. destruct Hlib as [_ Hne].
  congruence.
Qed.

Lemma gameDelete_then_unlisted_witness :
  fst (libraryGet Run.ann (snd Tour.delete_one)) = Games [Tour.go]
  /\ castObjectId Run.chess_id <> Some (Game._id Tour.go).
Proof.
  split; [reflexivity |].
  apply (gameDelete_then_unlisted Run.chess_id (snd Tour.add_go)
           (snd Tour.delete_one) (fst Tour.delete_one)
           eq_refl eq_refl eq_refl Run.ann [Tour.go] eq_refl).
  left. reflexivity.
Defined.

(** ** Sessions *)

Section Sessions.
Context {J : JsRuntime} {L : CryptoLib}.

(** X17. [authMiddleware] looks only at what stands between the first
    and the second space of the header.  Whatever word without a space
    stands before the token ('Bearer', another scheme, nothing at all) and
    whatever follows a space after the token, the outcome is that of
    [Bearer <token>]. *)
Theorem authMiddleware_scheme_ignored
        (env : Env) (scheme token rest : string) :
  compact scheme = true ->
  compact token = true ->
  authMiddleware env (Some (scheme ++ String " " token)%string)
  = authMiddleware env (Some ("Bearer " ++ token)%string)
  /\ authMiddleware env
       (Some (scheme ++ String " " (token ++ String " " rest))%string)
     = authMiddleware env (Some ("Bearer " ++ token)%string).
Proof.
  intros Hs Ht.
  assert (Hword : forall w tail, compact w = true ->
            authMiddleware env (Some (w ++ String " " tail)%string)
            = authMiddleware env (Some ("Bearer" ++ String " " tail)%string)).
  { intros w tail Hw. unfold authMiddleware.
    replace (truthy (Some (w ++ String " " tail)%string))
      with (Some (w ++ String " " tail)%string)
      by (destruct w; reflexivity).
    replace (truthy (Some ("Bearer" ++ String " " tail)%string))
      with (Some ("Bearer" ++ String " " tail)%string) by reflexivity.
    now rewrite (split_scheme w tail Hw), (split_scheme "Bearer" tail eq_refl). }
  split.
  - exact (Hword scheme token Hs).
  - rewrite (Hword scheme _ Hs). unfold authMiddleware.
    replace (truthy (Some ("Bearer" ++ String " " (token ++ String " " rest))%string))
      with (Some ("Bearer" ++ String " " (token ++ String " " rest))%string)
      by reflexivity.
    replace (truthy (Some ("Bearer " ++ token)%string))
      with (Some ("Bearer" ++ String " " token)%string) by reflexivity.
    rewrite (split_scheme "Bearer" (token ++ String " " rest) eq_refl).
    rewrite (split_scheme "Bearer" token eq_refl).
    rewrite (split_scheme token rest Ht), (split_compact token Ht).
    reflexivity.
Qed.

Lemma register_registered (env : Env) (username email password : option string)
      (db db' : Db) (r : Response) :
  failures db = [] ->
  register env username email password db = (r, db') ->
  status r = 200 ->
  exists u e p,
    username = Some u /\ email = Some e /\ password = Some p
    /\ p <> ""
    /\ find (emailOrUsername_is e u) (users db) = None
    /\ r = session env (new_User (fresh_id env) u e
                          (bcrypt_hash p saltRounds (salt env)))
    /\ db' = set_users
               (users db ++ [new_User (fresh_id env) u e
                               (bcrypt_hash p saltRounds (salt env))]) db.
Proof.
  intros Hf Hrun Hst. unfold register, handler, bind in Hrun.
  destruct (truthy username) as [u|] eqn:Eu;
    [| inversion Hrun; subst; discriminate].
  destruct (truthy email) as [e|] eqn:Ee;
    [| inversion Hrun; subst; discriminate].
  destruct (truthy password) as [p|] eqn:Ep;
    [| inversion Hrun; subst; discriminate].
  apply truthy_Some in Eu, Ee, Ep.
  destruct Eu as [-> _], Ee as [-> _], Ep as [-> Hp].
  rewrite (User_findOne_ok _ _ Hf) in Hrun.
  destruct (find (emailOrUsername_is e u) (users db)) eqn:Efind;
    [inversion Hrun; subst; discriminate |].
  exists u, e, p. repeat split; try assumption.
  all: revert Hrun; unfold User_save_new, bind, gets, throw, modify, ret;
    destruct (negb (validUser _)); [intros E; inversion E; subst; discriminate |];
    rewrite (roundtrip_ok _ Hf);
    destruct (clashes _ (users db)); intros E; inversion E; subst;
    try discriminate; reflexivity.
Qed.

(** X18. On a store that answers, after a registration answered 200 the
    new user can log in with the username and the password just
    registered, and with the e-mail address as it was typed, from then on
    at any time, provided no older user has the new username as e-mail
    address or the new e-mail address as username.  Each login is answered
    200 with a token for the new user and writes nothing. *)
Theorem register_then_login {C : CryptoContract L}
        (env : Env) (username email password : string)
        (db db' : Db) (r : Response) :
  failures db = [] ->
  register env (Some username) (Some email) (Some password) db = (r, db') ->
  status r = 200 ->
  (forall v, In v (users db) ->
     User.email v <> toLowerCase username /\ User.username v <> email) ->
  exists user,
    In user (users db')
    /\ User.username user = username
    /\ r = session env user
    /\ forall env',
         login env' (Some username) (Some password) db' = (session env' user, db')
         /\ login env' (Some email) (Some password) db' = (session env' user, db').
Proof.
  intros Hf Hrun Hst Hcross.
  destruct (register_registered _ _ _ _ _ _ _ Hf Hrun Hst)
    as (u & e & p & Hu & He & Hp & Hpne & Hfind & -> & ->).
  inversion Hu; inversion He; inversion Hp; subst u e p; clear Hu He Hp.
  set (user := new_User (fresh_id env) username email
                        (bcrypt_hash password saltRounds (salt env))).
  assert (Hune : username <> "").
  { intros ->. revert Hrun. unfold register, handler. simpl.
    intros E; inversion E; subst; discriminate. }
  assert (Hene : email <> "").
  { intros ->. revert Hrun. unfold register, handler.
    rewrite (truthy_present _ Hune). simpl.
    intros E; inversion E; subst; discriminate. }
  exists user. split; [simpl; apply in_or_app; right; now left |].
  split; [reflexivity |]. split; [reflexivity |].
  intros env'.
  assert (Hold : forall v, In v (users db) ->
            emailOrUsername_is email username v = false)
    by (intros v Hv; exact (find_none _ _ Hfind v Hv)).
  assert (Hpw : bcrypt_compare password (User.passwordHash user) = true)
    by (simpl; now apply bcrypt_compare_hash).
  split.
  - rewrite (login_found env' username password _ user); try assumption.
    + now rewrite Hpw.
    + simpl. apply find_app_fresh.
      * intros v Hv. specialize (Hold v Hv). destruct (Hcross v Hv) as [Hc _].
        unfold emailOrUsername_is in *. apply orb_false_iff in Hold.
        destruct Hold as [_ Hn]. rewrite Hn.
        apply String.eqb_neq in Hc. now rewrite Hc.
      * unfold emailOrUsername_is. simpl. rewrite String.eqb_refl.
        apply orb_true_r.
  - rewrite (login_found env' email password _ user); try assumption.
    + now rewrite Hpw.
    + simpl. apply find_app_fresh.
      * intros v Hv. specialize (Hold v Hv). destruct (Hcross v Hv) as [_ Hc].
        unfold emailOrUsername_is in *. apply orb_false_iff in Hold.
        destruct Hold as [Hn _]. rewrite Hn.
        apply String.eqb_neq in Hc. now rewrite Hc.
      * unfold emailOrUsername_is. simpl. now rewrite String.eqb_refl.
Qed.

(** X19. A login never writes: users and games are as before whatever
    the request and the reply.  On a store that answers, a login with both
    fields is answered with the same 400 'Invalid credentials' when no
    user matches the identity and when the password is wrong for the user
    that matches. *)
Theorem login_writes_nothing
        (env : Env) (emailOrUsername password : option string) (db : Db) :
  users (snd (login env emailOrUsername password db)) = users db
  /\ games (snd (login env emailOrUsername password db)) = games db
  /\ (forall identity candidate,
        failures db = [] ->
        emailOrUsername = Some identity -> identity <> "" ->
        password = Some candidate -> candidate <> "" ->
        match find (emailOrUsername_is identity identity) (users db) with
        | Some v => bcrypt_compare candidate (User.passwordHash v) = false
        | None => True
        end ->
        login env emailOrUsername password db
        = (res_status 400 (Message "Invalid credentials"), db)).
Proof.
  split; [| split].
  - unfold login, User_findOne. run. repeat (branch; run; try reflexivity).
  - unfold login, User_findOne. run. repeat (branch; run; try reflexivity).
  - intros identity candidate Hf -> Hi -> Hc Hwrong.
    destruct (find (emailOrUsername_is identity identity) (users db))
      as [v|] eqn:Efind.
    + rewrite (login_found env identity candidate db v Hf Hi Hc Efind).
      now rewrite Hwrong.
    + unfold login, handler, bind.
      rewrite (truthy_present _ Hi), (truthy_present _ Hc).
      now rewrite (User_findOne_ok _ _ Hf), Efind.
Qed.

(** X20. The signing key falls back to a text that is in the source.
    When [process.env.JWT_SECRET] is unset or empty, a token signed with
    'secretllavesecreta' that has not expired is accepted by
    [authMiddleware] with whatever claims it was signed for, the id, the
    username and isAdmin included. *)
Theorem default_secret_accepted {C : CryptoContract L}
        (env : Env) (payload : Claims) (issued : Z) :
  truthy (process_env_JWT_SECRET env) = None ->
  (now env < issued + expiresIn)%Z ->
  authMiddleware env
    (Some ("Bearer "
           ++ jwt_sign payload "secretllavesecreta" expiresIn issued)%string)
  = inr {| claims := payload; iat := issued; exp := (issued + expiresIn)%Z |}.
Proof.
  intros Henv Hlive. rewrite authMiddleware_bearer.
  unfold JWT_SECRET. rewrite Henv. rewrite String.eqb_refl.
  apply Z.ltb_lt in Hlive. now rewrite Hlive.
Qed.

(** X21. The token of a registration acts for the user it registered.
    On a store that answers, take a registration answered 200 whose fresh
    [_id] is an ObjectId that no older user has.  Sent as
    [Bearer <token>] before it expires, to a server with the same secret,
    its token passes [authMiddleware], and the add of a game of the
    catalog behind it is answered 200 'Added' with that game as the whole
    library of the new user. *)
Theorem register_then_add {C : CryptoContract L}
        (env env' : Env) (username email password : option string)
        (db db' : Db) (token : string) (shown : UserView)
        (gameId : string) (game : Game.doc) :
  failures db = [] ->
  register env username email password db
  = (res_json (Session token shown), db') ->
  castObjectId (toString (fresh_id env)) = Some (fresh_id env) ->
  (forall v, In v (users db) -> User._id v <> fresh_id env) ->
  JWT_SECRET env' = JWT_SECRET env ->
  (now env' < now env + expiresIn)%Z ->
  castObjectId gameId = Some (Game._id game) ->
  find (gameById (Game._id game)) (games db') = Some game ->
  exists user,
    In user (users db')
    /\ view user = shown
    /\ fst (protected env' (Some ("Bearer " ++ token)%string)
              (fun req_user => libraryAdd req_user (Some gameId)) db')
       = res_json (LibraryJson "Added" [Game._id game]).
Proof.
  intros Hf Hrun Hcast Hfresh Hsecret Hlive Hgid Hgame.
  destruct (register_registered _ _ _ _ _ _ _ Hf Hrun eq_refl)
    as (u & e & p & _ & _ & _ & _ & _ & Hr & ->).
  set (user := new_User (fresh_id env) u e
                        (bcrypt_hash p saltRounds (salt env))) in *.
  unfold session, res_json in Hr. inversion Hr as [[Htoken Hview]].
  exists user. split; [simpl; apply in_or_app; right; now left |].
  split; [reflexivity |].
  unfold protected. rewrite authMiddleware_bearer, Hsecret, String.eqb_refl.
  apply Z.ltb_lt in Hlive. rewrite Hlive. simpl andb. cbv iota.
  assert (Huser : find (byId (fresh_id env)) (users db ++ [user]) = Some user).
  { apply find_app_fresh.
    - intros v Hv. apply not_true_is_false. intros Hm.
      apply byId_true in Hm. exact (Hfresh v Hv Hm).
    - now apply byId_true. }
  remember (set_users (users db ++ [user]) db) as db1 eqn:Edb1.
  assert (Hf1 : failures db1 = []) by (subst db1; exact Hf).
  assert (Huser1 : find (byId (fresh_id env)) (users db1) = Some user)
    by (subst db1; exact Huser).
  unfold libraryAdd, handler, bind.
  rewrite (castObjectId_nonempty _ _ Hgid).
  rewrite (Game_findById_ok _ _ _ Hf1 Hgid), Hgame.
  cbn [claims claim_id claims_of].
  rewrite (User_findById_ok _ (fresh_id env) _ Hf1) by exact Hcast.
  rewrite Huser1. cbn [User.library user new_User includes existsb].
  rewrite (User_save_ok _ _ Hf1). reflexivity.
Qed.

End Sessions.

Lemma authMiddleware_scheme_ignored_witness :
  authMiddleware (L := Sym.lib) (Run.clock 2000 Run.bob_id)
    (Some ("Basic " ++ Tour.ann_token)%string)
  = authMiddleware (L := Sym.lib) (Run.clock 2000 Run.bob_id)
      (Some ("Bearer " ++ Tour.ann_token)%string)
  /\ authMiddleware (L := Sym.lib) (Run.clock 2000 Run.bob_id)
       (Some ("Basic " ++ Tour.ann_token ++ " and more")%string)
     = authMiddleware (L := Sym.lib) (Run.clock 2000 Run.bob_id)
         (Some ("Bearer " ++ Tour.ann_token)%string).
Proof.
  exact (authMiddleware_scheme_ignored (L := Sym.lib) (Run.clock 2000 Run.bob_id)
           "Basic" Tour.ann_token "and more" eq_refl eq_refl).
Defined.

Lemma register_then_login_witness :
  exists user,
    In user (users (snd Run.register_ann))
    /\ User.username user = "ann"
    /\ fst Run.register_ann
       = session (L := Sym.lib) (Run.clock 1000 Run.ann_id) user
    /\ forall env',
         login (J := Plain.js) (L := Sym.lib) env' (Some "ann") (Some "p12345")
               (snd Run.register_ann)
         = (session (L := Sym.lib) env' user, snd Run.register_ann)
         /\ login (J := Plain.js) (L := Sym.lib) env'
                  (Some "Ann@X.com") (Some "p12345") (snd Run.register_ann)
            = (session (L := Sym.lib) env' user, snd Run.register_ann).
Proof.
  apply (register_then_login (J := Plain.js) (L := Sym.lib) (C := Sym_contract)
           (Run.clock 1000 Run.ann_id) "ann" "Ann@X.com" "p12345" Run.empty
           (snd Run.register_ann) (fst Run.register_ann)).
  - reflexivity.
  - reflexivity.
  - reflexivity.
  - intros v [].
Defined.

Lemma login_writes_nothing_witness :
  login (J := Plain.js) (L := Sym.lib) (Run.clock 6000 Run.go_id)
        (Some "ann") (Some "guess") (snd Run.register_bob)
  = (res_status 400 (Message "Invalid credentials"), snd Run.register_bob)
  /\ login (J := Plain.js) (L := Sym.lib) (Run.clock 6000 Run.go_id)
           (Some "eve") (Some "guess") (snd Run.register_bob)
     = (res_status 400 (Message "Invalid credentials"), snd Run.register_bob).
Proof.
  split.
  - refine (proj2 (proj2 (login_writes_nothing (J := Plain.js) (L := Sym.lib)
              (Run.clock 6000 Run.go_id) (Some "ann") (Some "guess")
              (snd Run.register_bob)))
              "ann" "guess" eq_refl eq_refl _ eq_refl _ eq_refl);
      discriminate.
  - refine (proj2 (proj2 (login_writes_nothing (J := Plain.js) (L := Sym.lib)
              (Run.clock 6000 Run.go_id) (Some "eve") (Some "guess")
              (snd Run.register_bob)))
              "eve" "guess" eq_refl eq_refl _ eq_refl _ I);
      discriminate.
Defined.

Lemma default_secret_accepted_witness :
  authMiddleware (L := Sym.lib) (Run.clock 2000 Run.bob_id)
    (Some ("Bearer "
           ++ Sym.sign Tour.root "secretllavesecreta" expiresIn 0)%string)
  = inr {| claims := Tour.root; iat := 0; exp := (0 + expiresIn)%Z |}.
Proof.
  exact (default_secret_accepted (L := Sym.lib) (C := Sym_contract)
           (Run.clock 2000 Run.bob_id) Tour.root 0%Z eq_refl eq_refl).
Defined.

Lemma register_then_add_witness :
  exists user,
    In user (users (snd Tour.register_cyd))
    /\ view user = Tour.cyd_view
    /\ fst (protected (L := Sym.lib) (Run.clock 9000 Run.go_id)
              (Some ("Bearer " ++ Tour.cyd_token)%string)
              (fun req_user => libraryAdd req_user (Some Run.chess_id))
              (snd Tour.register_cyd))
       = res_json (LibraryJson "Added" [Game._id Tour.chess]).
Proof.
  apply (register_then_add (J := Plain.js) (L := Sym.lib) (C := Sym_contract)
           (Run.clock 5000 Tour.cyd_id) (Run.clock 9000 Run.go_id)
           (Some "cyd") (Some "Cyd@X.com") (Some "s3cret")
           Run.populated (snd Tour.register_cyd)
           Tour.cyd_token Tour.cyd_view Run.chess_id Tour.chess).
  - reflexivity.
  - reflexivity.
  - reflexivity.
  - intros v Hv. vm_compute in Hv.
    destruct Hv as [<- | [<- | []]]; discriminate.
  - reflexivity.
  - reflexivity.
  - reflexivity.
  - reflexivity.
Defined.
